(** * The reconciler adapter of nginx-kubernetes-gateway

    A shallow embedding of [internal/reconciler/implementation.go]:
    [Implementation.Reconcile] fetches the object named by a request,
    re-validates it, and offers exactly one event to the shared event
    channel, racing the send against the cancellation of its context.

    Pointers are locations of a heap, a [client.Object] interface value is a
    dynamic type together with a location, the calls and communications of an
    invocation are listed in the order the code performs them, and the [select]
    statement is resolved from the instants at which the context is cancelled
    and at which the channel can take the send. *)

From stdpp Require Import gmap strings list.
From Stdlib Require Import ZArith.

Local Open Scope string_scope.

(** ** k8s.io/apimachinery/pkg/types *)
Module types.

Record NamespacedName := mkNamespacedName {
  Namespace : string;
  Name : string
}.

#[global] Instance NamespacedName_eq_dec : EqDecision NamespacedName.
Proof. solve_decision. Defined.

End types.

(** ** Go [error] values and k8s.io/apimachinery/pkg/api/errors *)
Module apierrors.

Inductive StatusReason :=
| StatusReasonUnknown
| StatusReasonNotFound
| StatusReasonForbidden
| StatusReasonTimeout.

(** An [error] is either an API status error, which carries a reason, or a
    plain error made by [errors.New]. *)
Inductive error :=
| StatusError (reason : StatusReason) (message : string)
| errorString (s : string).

#[global] Instance StatusReason_eq_dec : EqDecision StatusReason.
Proof. solve_decision. Defined.

#[global] Instance error_eq_dec : EqDecision error.
Proof. solve_decision. Defined.

Definition NewNotFound (name : string) : error :=
  StatusError StatusReasonNotFound name.

Definition IsNotFound (err : error) : bool :=
  match err with
  | StatusError StatusReasonNotFound _ => true
  | _ => false
  end.

End apierrors.

(** ** sigs.k8s.io/controller-runtime/pkg/client *)
Module client.

(** The value a pointer of type [*T] points to: the object's metadata and the
    rest of its fields. *)
Record Value := mkValue {
  ObjectMeta : types.NamespacedName;
  Spec : string
}.

#[global] Instance Value_eq_dec : EqDecision Value.
Proof. solve_decision. Defined.

(** [reflect.Type] of the pointee, by name. *)
Definition TypeTag := string.

(** What [reflect.New(t)] points to: the zero value of [t]. *)
Definition zero (t : TypeTag) : Value :=
  {| ObjectMeta := types.mkNamespacedName "" ""; Spec := "" |}.

#[global] Instance Value_inhabited : Inhabited Value := populate (zero "").

Definition loc := positive.

(** A non-nil [client.Object]: the dynamic type [*T] and the pointer. *)
Record Object := mkObject {
  elem : TypeTag;
  ptr : loc
}.

#[global] Instance Object_eq_dec : EqDecision Object.
Proof. solve_decision. Defined.

Definition ObjectKeyFromObject (v : Value) : types.NamespacedName :=
  ObjectMeta v.

End client.

(** ** sigs.k8s.io/controller-runtime/pkg/reconcile *)
Module reconcile.

Record Request := mkRequest {
  NamespacedName : types.NamespacedName
}.

Record Result := mkResult {
  Requeue : bool;
  RequeueAfter : Z
}.

#[global] Instance Result_eq_dec : EqDecision Result.
Proof. solve_decision. Defined.

(** [reconcile.Result{}] *)
Definition empty : Result := {| Requeue := false; RequeueAfter := 0 |}.

End reconcile.

(** ** internal/events *)
Module events.

(** Modelled from the spec: the declarations of [events.UpsertEvent] and
    [events.DeleteEvent] are in a file that is not among the sources. The spec
    gives the event stream as [{Upsert{resource}, Delete{kind, identity}}], and
    [Reconcile] and its tests build the two structs with exactly these
    fields. *)
Record UpsertEvent := mkUpsertEvent {
  Resource : client.Object
}.

Record DeleteEvent := mkDeleteEvent {
  Type_ : client.Object;
  NamespacedName : types.NamespacedName
}.

(** What travels on the [chan<- interface{}]: a pointer to one of the two. *)
Inductive Event :=
| Upsert (e : UpsertEvent)
| Delete (e : DeleteEvent).

#[global] Instance UpsertEvent_eq_dec : EqDecision UpsertEvent.
Proof. solve_decision. Defined.
#[global] Instance DeleteEvent_eq_dec : EqDecision DeleteEvent.
Proof. solve_decision. Defined.
#[global] Instance Event_eq_dec : EqDecision Event.
Proof. solve_decision. Defined.

End events.

(** ** [context.Context] and the [select] statement *)
Module context.

(** Instants are counted from the moment the [select] statement of [Reconcile]
    is entered. [done_at = Some 0]: the context is cancelled by then;
    [Some (S n)]: it is cancelled later, while the call waits; [None]: it is
    never cancelled. *)
Record Context := mkContext {
  done_at : option nat
}.

Definition Background : Context := {| done_at := None |}.

(** [ctx, cancel := context.WithCancel(parent); cancel()] *)
Definition Cancelled : Context := {| done_at := Some 0 |}.

End context.

Module sched.

Inductive SelectCase := CaseDone | CaseSend.

#[global] Instance SelectCase_eq_dec : EqDecision SelectCase.
Proof. solve_decision. Defined.

(** The receiving side of the event channel and the runtime's choice.
    [ready_at = Some 0]: the send can proceed when the [select] is entered (a
    receiver is waiting, or the buffer has room); [Some (S n)]: it can proceed
    later; [None]: never (the channel stays full). When both communications can
    proceed at the same instant Go picks one pseudo-randomly: [coin]. *)
Record Sched := mkSched {
  ready_at : option nat;
  coin : SelectCase
}.

(** [select { case <-ctx.Done(): ...; case ch <- e: }], without [default]:
    the communication that can proceed first is taken, [coin] decides between
    two that can proceed together, and [None] means that the statement blocks
    for ever. *)
Definition select (ctx : context.Context) (s : Sched) : option SelectCase :=
  match context.done_at ctx, ready_at s with
  | None, None => None
  | Some _, None => Some CaseDone
  | None, Some _ => Some CaseSend
  | Some c, Some r =>
      if (c <? r)%nat then Some CaseDone
      else if (r <? c)%nat then Some CaseSend
      else Some (coin s)
  end.

End sched.

(** ** internal/reconciler *)
Module reconciler.

Import apierrors.

Abbreviation Heap := (gmap positive client.Value).

(** The event channel and the event recorder are named; what is sent to them
    is listed in the effects of a call. *)
Abbreviation Chan := nat (only parsing).
Abbreviation EventRecorder := nat (only parsing).

(** What one call does to the world outside the heap, in program order. *)
Inductive Effect :=
| LogInfo (msg : string)
| LogError (err : error) (msg : string)
| FilterCall (nsname : types.NamespacedName)
| GetCall (key : types.NamespacedName) (obj : client.Object)
| ValidatorCall (obj : client.Object)
| Eventf (rec : EventRecorder) (object : option client.Object)
    (eventtype reason messageFmt : string) (args : list error)
| DoneRecv
| ChanSend (ch : Chan) (e : events.Event).

(** How a call of [Reconcile] ends: it returns its two results, or it stays
    blocked in the [select] statement for ever. *)
Inductive Outcome :=
| Returned (res : reconcile.Result) (err : option error)
| Blocked.

(** *** A monad for heap, effects and early [return] *)

Record Run (A : Type) := mkRun {
  value : A;
  heap : Heap;
  effects : list Effect
}.
Arguments mkRun {A} _ _ _.
Arguments value {A} _.
Arguments heap {A} _.
Arguments effects {A} _.

(** [inl o]: the function has executed a [return] statement (or is blocked)
    and the rest of its body is skipped. *)
Definition M (A : Type) : Type := Heap -> Run (Outcome + A).

Definition return_ {A} (o : Outcome) : M A := fun h => mkRun (inl o) h [].

#[global] Instance M_ret : MRet M := fun A a h => mkRun (inr a) h [].

#[global] Instance M_bind : MBind M := fun A B k m h =>
  match m h with
  | mkRun (inl o) h1 t1 => mkRun (inl o) h1 t1
  | mkRun (inr a) h1 t1 =>
      match k a h1 with
      | mkRun v h2 t2 => mkRun v h2 (t1 ++ t2)
      end
  end.

Definition emit (e : Effect) : M unit := fun h => mkRun (inr tt) h [e].

(** [reflect.New]: a pointer that no live object has, to the given value. *)
Definition alloc (v : client.Value) : M positive := fun h =>
  let l := fresh (dom h) in mkRun (inr l) (<[l := v]> h) [].

Definition load (l : positive) : M client.Value := fun h =>
  mkRun (inr (h !!! l)) h [].

Definition store (l : positive) (v : client.Value) : M unit := fun h =>
  mkRun (inr tt) (<[l := v]> h) [].

(** The body of a function, run to its end. *)
Definition exec (body : M Outcome) (h : Heap) : Run Outcome :=
  match body h with
  | mkRun (inl o) h1 t1 | mkRun (inr o) h1 t1 => mkRun o h1 t1
  end.

(** *** The capabilities of [Config] *)

(** [type NamespacedNameFilterFunc func(nsname types.NamespacedName) (bool, string)] *)
Definition NamespacedNameFilterFunc : Type :=
  types.NamespacedName -> bool * string.

(** [type ValidatorFunc func(object client.Object) error]: the validator reads
    the dynamic type of its argument and the value it points to. *)
Definition ValidatorFunc : Type :=
  client.TypeTag -> client.Value -> option error.

(** The [Getter] interface, with the signature the tests give to [getFunc]:
    [Get(ctx, key, obj) error] reads the dynamic type of [obj], writes through
    the pointer and returns an error or nil. Like the validator, it is handed
    one object and touches no other object of the heap. *)
Record Getter := mkGetter {
  Get : context.Context -> types.NamespacedName -> client.TypeTag ->
        client.Value -> client.Value * option error
}.

Record Config := mkConfig {
  (* Getter gets a resource from the k8s API. *)
  Getter_ : Getter;
  (* ObjectType is the type of the resource that the reconciler will reconcile. *)
  ObjectType : client.Object;
  (* EventCh is the channel where the reconciler will send events. *)
  EventCh : Chan;
  (* NamespacedNameFilter filters resources the controller will process. Can be nil. *)
  NamespacedNameFilter : option NamespacedNameFilterFunc;
  (* WebhookValidator validates a resource. Can be nil. *)
  WebhookValidator : option ValidatorFunc;
  (* EventRecorder records event about resources. *)
  EventRecorder_ : EventRecorder
}.

Record Implementation := mkImplementation {
  cfg : Config
}.

Definition NewImplementation (c : Config) : Implementation :=
  {| cfg := c |}.

(** *** Calls through the capabilities *)

Definition logInfo (msg : string) : M unit := emit (LogInfo msg).
Definition logError (err : error) (msg : string) : M unit :=
  emit (LogError err msg).

Definition callFilter (f : NamespacedNameFilterFunc)
    (nsname : types.NamespacedName) : M (bool * string) :=
  emit (FilterCall nsname);;
  mret (f nsname).

Definition callGet (g : Getter) (ctx : context.Context)
    (key : types.NamespacedName) (obj : client.Object) : M (option error) :=
  emit (GetCall key obj);;
  v ← load (client.ptr obj);
  let reply := Get g ctx key (client.elem obj) v in
  store (client.ptr obj) (fst reply);;
  mret (snd reply).

Definition callValidator (f : ValidatorFunc) (obj : client.Object)
    : M (option error) :=
  emit (ValidatorCall obj);;
  v ← load (client.ptr obj);
  mret (f (client.elem obj) v).

(** *** implementation.go *)

(** [reflect.TypeOf(objectType).Elem()] reads the dynamic type only;
    [reflect.New(t)] allocates a zero value of it. *)
Definition newObject (objectType : client.Object) : M client.Object :=
  let t := client.elem objectType in
  l ← alloc (client.zero t);
  mret {| client.elem := t; client.ptr := l |}.

Definition webhookValidationErrorLogMsg : string :=
  "Rejected the resource because the Gateway API webhook failed to reject it with " +:+
  "a validation error; make sure the webhook is installed and running correctly; " +:+
  "NKG will delete any existing NGINX configuration that corresponds to the resource".

Definition EventTypeWarning : string := "Warning".

Definition Reconcile (r : Implementation) (s : sched.Sched)
    (ctx : context.Context) (req : reconcile.Request) : M Outcome :=
  logInfo "Reconciling the resource";;

  match NamespacedNameFilter (cfg r) with
  | Some filter =>
      verdict ← callFilter filter (reconcile.NamespacedName req);
      if negb (fst verdict) then
        (logInfo (snd verdict);;
         return_ (Returned reconcile.empty None))
      else mret tt
  | None => mret tt
  end;;

  obj ← newObject (ObjectType (cfg r));
  err ← callGet (Getter_ (cfg r)) ctx (reconcile.NamespacedName req) obj;
  obj ← match err with
        | Some err =>
            if negb (IsNotFound err) then
              (logError err "Failed to get the resource";;
               return_ (Returned reconcile.empty (Some err)))
            else
              (* The resource does not exist (was deleted). *)
              mret None
        | None => mret (Some obj)
        end;

  validationError ← match obj, WebhookValidator (cfg r) with
                    | Some obj, Some validator => callValidator validator obj
                    | _, _ => mret None
                    end;

  match validationError with
  | Some validationError =>
      logError validationError webhookValidationErrorLogMsg;;
      emit (Eventf (EventRecorder_ (cfg r)) obj EventTypeWarning "Rejected"
              (webhookValidationErrorLogMsg +:+ "; validation error: %v")
              [validationError])
  | None => mret tt
  end;;

  let '(e, op) :=
    match obj, validationError with
    | Some obj, None =>
        (events.Upsert {| events.Resource := obj |}, "Upserted")
    | _, _ =>
        (* In case of a validation error, we handle the resource as if it was deleted. *)
        (events.Delete {| events.Type_ := ObjectType (cfg r);
                          events.NamespacedName := reconcile.NamespacedName req |},
         "Deleted")
    end in

  match sched.select ctx s with
  | Some sched.CaseDone =>
      emit DoneRecv;;
      logInfo "Did not process the resource because the context was canceled";;
      return_ (Returned reconcile.empty None)
  | Some sched.CaseSend =>
      emit (ChanSend (EventCh (cfg r)) e);;
      logInfo (op +:+ " the resource");;
      mret (Returned reconcile.empty None)
  | None => return_ Blocked
  end.

(** *** What a call is observed to do *)

(** The events sent, with the channel each one was sent on. *)
Fixpoint sends (t : list Effect) : list (Chan * events.Event) :=
  match t with
  | [] => []
  | ChanSend ch e :: t => (ch, e) :: sends t
  | _ :: t => sends t
  end.

(** The calls of the Getter, with the key and the object each one was
    handed. *)
Fixpoint gets (t : list Effect) : list (types.NamespacedName * client.Object) :=
  match t with
  | [] => []
  | GetCall key obj :: t => (key, obj) :: gets t
  | _ :: t => gets t
  end.

(** A recorded event, as [EventRecorder.Eventf] receives it. *)
Record Recorded := mkRecorded {
  rec_recorder : EventRecorder;
  rec_object : option client.Object;
  rec_eventtype : string;
  rec_reason : string;
  rec_messageFmt : string;
  rec_args : list error
}.

Fixpoint recorded (t : list Effect) : list Recorded :=
  match t with
  | [] => []
  | Eventf rec o ty reason fmt args :: t =>
      mkRecorded rec o ty reason fmt args :: recorded t
  | _ :: t => recorded t
  end.

(** Calls of the Getter, the validator and the event recorder. *)
Definition is_call (e : Effect) : bool :=
  match e with
  | GetCall _ _ | ValidatorCall _ | Eventf _ _ _ _ _ _ => true
  | _ => false
  end.

(** The two communications of the [select] statement. *)
Definition is_comm (e : Effect) : bool :=
  match e with
  | DoneRecv | ChanSend _ _ => true
  | _ => false
  end.

(** What a call has done when it reaches the first communication of its
    [select] statement. *)
Fixpoint before_comm (t : list Effect) : list Effect :=
  match t with
  | [] => []
  | e :: t => if is_comm e then [] else e :: before_comm t
  end.

(** *** The inputs of a call, as the claims name them *)

(** The identity passes the filter, or no filter is configured. *)
Definition allowed (r : Implementation) (req : reconcile.Request) : bool :=
  match NamespacedNameFilter (cfg r) with
  | Some filter => fst (filter (reconcile.NamespacedName req))
  | None => true
  end.

(** What the Getter answers when it is handed a zero value of the configured
    type: the object it writes and the error it returns. *)
Definition fetch (r : Implementation) (ctx : context.Context)
    (req : reconcile.Request) : client.Value * option error :=
  let t := client.elem (ObjectType (cfg r)) in
  Get (Getter_ (cfg r)) ctx (reconcile.NamespacedName req) t (client.zero t).

(** The fetch failure that is not a not-found, if the fetch is reached. *)
Definition fetch_error (r : Implementation) (ctx : context.Context)
    (req : reconcile.Request) : option error :=
  if allowed r req then
    match snd (fetch r ctx req) with
    | Some err => if IsNotFound err then None else Some err
    | None => None
    end
  else None.

(** What the configured validator, if any, says of a fetched value. *)
Definition validation (r : Implementation) (v : client.Value) : option error :=
  match WebhookValidator (cfg r) with
  | Some validator => validator (client.elem (ObjectType (cfg r))) v
  | None => None
  end.

(** The object [newObject] returns on heap [h]. *)
Definition fresh_object (r : Implementation) (h : Heap) : client.Object :=
  {| client.elem := client.elem (ObjectType (cfg r));
     client.ptr := fresh (dom h) |}.

Definition delete_event (r : Implementation) (req : reconcile.Request)
    : events.Event :=
  events.Delete {| events.Type_ := ObjectType (cfg r);
                   events.NamespacedName := reconcile.NamespacedName req |}.

Definition upsert_event (r : Implementation) (h : Heap) : events.Event :=
  events.Upsert {| events.Resource := fresh_object r h |}.

(** *** The stages of a call

    The effects and the heap of a call, stage by stage, as functions of its
    inputs: they are what the equations of [Reconcile] below are stated
    with. *)

(** Lines 77-91: the first log line, the filter if there is one, the fetch. *)
Definition fetch_effects (r : Implementation) (req : reconcile.Request)
    (h : Heap) : list Effect :=
  LogInfo "Reconciling the resource" ::
  match NamespacedNameFilter (cfg r) with
  | Some _ => [FilterCall (reconcile.NamespacedName req)]
  | None => []
  end ++
  [GetCall (reconcile.NamespacedName req) (fresh_object r h)].

(** The heap once the Getter has written through the fresh pointer. *)
Definition fetch_heap (r : Implementation) (ctx : context.Context)
    (req : reconcile.Request) (h : Heap) : Heap :=
  <[fresh (dom h) := fst (fetch r ctx req)]> h.

(** Lines 101-104: the validator is called if there is one. *)
Definition validator_effects (r : Implementation) (h : Heap) : list Effect :=
  match WebhookValidator (cfg r) with
  | Some _ => [ValidatorCall (fresh_object r h)]
  | None => []
  end.

(** Lines 106-110: the rejection is logged and recorded. *)
Definition warning (r : Implementation) (h : Heap) (verr : error) : Recorded :=
  {| rec_recorder := EventRecorder_ (cfg r);
     rec_object := Some (fresh_object r h);
     rec_eventtype := EventTypeWarning;
     rec_reason := "Rejected";
     rec_messageFmt := webhookValidationErrorLogMsg +:+ "; validation error: %v";
     rec_args := [verr] |}.

Definition rejection_effects (r : Implementation) (h : Heap) (verr : error)
    : list Effect :=
  [LogError verr webhookValidationErrorLogMsg;
   Eventf (EventRecorder_ (cfg r)) (Some (fresh_object r h)) EventTypeWarning
     "Rejected" (webhookValidationErrorLogMsg +:+ "; validation error: %v")
     [verr]].

(** Lines 129-138: the [select] statement and what follows it. *)
Definition select_effects (r : Implementation) (s : sched.Sched)
    (ctx : context.Context) (e : events.Event) (op : string) : list Effect :=
  match sched.select ctx s with
  | Some sched.CaseDone =>
      [DoneRecv;
       LogInfo "Did not process the resource because the context was canceled"]
  | Some sched.CaseSend =>
      [ChanSend (EventCh (cfg r)) e; LogInfo (op +:+ " the resource")]
  | None => []
  end.

Definition select_outcome (s : sched.Sched) (ctx : context.Context) : Outcome :=
  match sched.select ctx s with
  | Some _ => Returned reconcile.empty None
  | None => Blocked
  end.

(** *** Successive calls *)

(** One request as the controller runtime delivers it, with the environment
    of the call. *)
Record Call := mkCall {
  call_sched : sched.Sched;
  call_ctx : context.Context;
  call_req : reconcile.Request
}.

(** The calls of one reconciler, one after the other: each call starts on
    the heap the call before it has left. The heap after the last one. *)
Fixpoint ReconcileAll (r : Implementation) (calls : list Call) (h : Heap)
    : Heap :=
  match calls with
  | [] => h
  | c :: calls =>
      ReconcileAll r calls
        (heap (exec (Reconcile r (call_sched c) (call_ctx c) (call_req c)) h))
  end.

(** *** More observations *)

(** The calls through the capabilities of [Config]: the filter, the Getter,
    the validator and the event recorder. *)
Definition is_capability (e : Effect) : bool :=
  match e with
  | FilterCall _ | GetCall _ _ | ValidatorCall _ | Eventf _ _ _ _ _ _ => true
  | _ => false
  end.

(** An effect with the pointers of the objects a call has allocated
    forgotten: what is left does not tell where [newObject] has put them. *)
Definition anywhere (o : client.Object) : client.Object :=
  {| client.elem := client.elem o; client.ptr := 1%positive |}.

Definition erase (e : Effect) : Effect :=
  match e with
  | GetCall key obj => GetCall key (anywhere obj)
  | ValidatorCall obj => ValidatorCall (anywhere obj)
  | Eventf rec o ty reason fmt args =>
      Eventf rec (anywhere <$> o) ty reason fmt args
  | ChanSend ch (events.Upsert u) =>
      ChanSend ch
        (events.Upsert {| events.Resource := anywhere (events.Resource u) |})
  | e => e
  end.

(** The body of [newObject] or of a capability call, run on a heap: it has
    no [return] statement of its own. *)
Definition exec_ {A} (body : M A) (h : Heap) : Run (option A) :=
  match body h with
  | mkRun (inl _) h1 t1 => mkRun None h1 t1
  | mkRun (inr a) h1 t1 => mkRun (Some a) h1 t1
  end.

End reconciler.

(** ** k8s.io/apimachinery/pkg/runtime/schema *)
Module schema.

Record GroupVersion := mkGroupVersion {
  gv_Group : string;
  gv_Version : string
}.

Record GroupVersionResource := mkGroupVersionResource {
  gvr_Group : string;
  gvr_Version : string;
  gvr_Resource : string
}.

Record GroupResource := mkGroupResource {
  gr_Group : string;
  gr_Resource : string
}.

#[global] Instance GroupVersionResource_eq_dec : EqDecision GroupVersionResource.
Proof. solve_decision. Defined.

#[global] Instance GroupResource_eq_dec : EqDecision GroupResource.
Proof. solve_decision. Defined.

(** [func (gv GroupVersion) WithResource(resource string) GroupVersionResource] *)
Definition WithResource (gv : GroupVersion) (resource : string)
    : GroupVersionResource :=
  {| gvr_Group := gv_Group gv; gvr_Version := gv_Version gv;
     gvr_Resource := resource |}.

(** [func (gvr GroupVersionResource) GroupResource() GroupResource] *)
Definition GroupResource_ (gvr : GroupVersionResource) : GroupResource :=
  {| gr_Group := gvr_Group gvr; gr_Resource := gvr_Resource gvr |}.

End schema.

(** ** The generated generic informer (package externalversions) *)
Module externalversions.

Section generic.

(** [cache.SharedIndexInformer], [cache.Indexer] and the state of the
    [sharedInformerFactory]: they are declared outside the sources. *)
Variables SharedIndexInformer Indexer Factory : Type.

(** [SharedIndexInformer.GetIndexer()] *)
Variable GetIndexer : SharedIndexInformer -> Indexer.

(** [v1alpha1.SchemeGroupVersion] *)
Variable SchemeGroupVersion : schema.GroupVersion.

(** [f.Gateway().V1alpha1().GatewayConfigs().Informer()]: the informer of the
    factory for gateway configs; asking for it may register it in the
    factory. *)
Variable GatewayConfigsInformer : Factory -> SharedIndexInformer * Factory.

Record genericInformer := mkGenericInformer {
  informer : SharedIndexInformer;
  resource : schema.GroupResource
}.

(** What [cache.NewGenericLister(indexer, resource)] is built from. *)
Record GenericLister := NewGenericLister {
  lister_indexer : Indexer;
  lister_resource : schema.GroupResource
}.

(** Informer returns the SharedIndexInformer. *)
Definition Informer (f : genericInformer) : SharedIndexInformer :=
  informer f.

(** Lister returns the GenericLister. *)
Definition Lister (f : genericInformer) : GenericLister :=
  NewGenericLister (GetIndexer (Informer f)) (resource f).

(** [fmt.Errorf(format, resource)] *)
Inductive error :=
| Errorf (format : string) (arg : schema.GroupVersionResource).

(** ForResource gives generic access to a shared informer of the matching
    type: the two results, and the factory after the call. *)
Definition ForResource (f : Factory) (resource : schema.GroupVersionResource)
    : option genericInformer * option error * Factory :=
  if decide (resource = schema.WithResource SchemeGroupVersion "gatewayconfigs")
  then
    let '(i, f') := GatewayConfigsInformer f in
    (Some {| resource := schema.GroupResource_ resource; informer := i |},
     None, f')
  else
    (None, Some (Errorf "no informer found for %v" resource), f).

End generic.

Arguments mkGenericInformer {SharedIndexInformer} _ _.
Arguments informer {SharedIndexInformer} _.
Arguments resource {SharedIndexInformer} _.
Arguments NewGenericLister {Indexer} _ _.
Arguments lister_indexer {Indexer} _.
Arguments lister_resource {Indexer} _.
Arguments Informer {SharedIndexInformer} _.
Arguments Lister {SharedIndexInformer Indexer} _ _.
Arguments ForResource {SharedIndexInformer Factory} _ _ _ _.

End externalversions.

(** ** internal/reconciler/implementation_test.go: the objects of the tests *)
Module fixtures.

Import apierrors reconciler.

Definition hr1NsName : types.NamespacedName :=
  {| types.Namespace := "test"; types.Name := "hr-1" |}.

Definition hr1 : client.Value :=
  {| client.ObjectMeta := hr1NsName; client.Spec := "" |}.

Definition hr2NsName : types.NamespacedName :=
  {| types.Namespace := "test"; types.Name := "hr-2" |}.

Definition hr2 : client.Value :=
  {| client.ObjectMeta := hr2NsName; client.Spec := "" |}.

Definition hr2IsInvalidValidator : ValidatorFunc := fun _ obj =>
  if decide (client.ObjectKeyFromObject obj = hr2NsName)
  then Some (errorString "test")
  else None.

(** [hr.DeepCopyInto(object)] and a nil error. *)
Definition getReturnsHRForHR (hr : client.Value) : Getter :=
  {| Get := fun _ _ _ _ => (hr, None) |}.

(** The object is left as it is. *)
Definition getReturnsNotFoundErrorForHR : Getter :=
  {| Get := fun _ _ _ object => (object, Some (NewNotFound "not found")) |}.

Definition getError : error := errorString "get error".

(** [fakeGetter.GetReturns(getError)] *)
Definition getReturnsError : Getter :=
  {| Get := fun _ _ _ object => (object, Some getError) |}.

(** The filter of the tests: every identity but [hr1NsName] is ignored. *)
Definition filter : NamespacedNameFilterFunc := fun nsname =>
  if decide (nsname = hr1NsName) then (true, "") else (false, "ignore").

Definition HTTPRoute : client.TypeTag := "v1beta1.HTTPRoute".

(** [ObjectType: &v1beta1.HTTPRoute{}], the only live object when a test
    starts. *)
Definition objectType : client.Object :=
  {| client.elem := HTTPRoute; client.ptr := 1%positive |}.

Definition heap0 : Heap := {[ 1%positive := client.zero HTTPRoute ]}.

Definition eventCh : nat := 0.
Definition fakeRecorder : nat := 0.

(** The reconciler of [Describe("Edge cases")] and of the validator tests. *)
Definition recWithValidator (g : Getter) : Implementation :=
  NewImplementation
    {| Getter_ := g; ObjectType := objectType; EventCh := eventCh;
       NamespacedNameFilter := None;
       WebhookValidator := Some hr2IsInvalidValidator;
       EventRecorder_ := fakeRecorder |}.

(** The reconciler of [When("Reconciler has a NamespacedNameFilter")]. *)
Definition recWithFilter (g : Getter) : Implementation :=
  NewImplementation
    {| Getter_ := g; ObjectType := objectType; EventCh := eventCh;
       NamespacedNameFilter := Some filter;
       WebhookValidator := None;
       EventRecorder_ := fakeRecorder |}.

Definition request (nsname : types.NamespacedName) : reconcile.Request :=
  {| reconcile.NamespacedName := nsname |}.

(** A receiver is blocked on the channel when the [select] is entered. *)
Definition receiverWaiting (c : sched.SelectCase) : sched.Sched :=
  {| sched.ready_at := Some 0; sched.coin := c |}.

(** Nobody ever receives: the channel stays full. *)
Definition noReceiver : sched.Sched :=
  {| sched.ready_at := None; sched.coin := sched.CaseSend |}.

(** The receiver of the tests: [Eventually(eventCh).Should(Receive(...))] and
    [Consistently(eventCh).ShouldNot(Receive())] poll the unbuffered channel
    without blocking on it, so the send cannot proceed when the [select] is
    entered and can proceed at the next poll. *)
Definition polling (c : sched.SelectCase) : sched.Sched :=
  {| sched.ready_at := Some 1; sched.coin := c |}.

(** The reconciler of [When("Reconciler doesn't have a filter")]. *)
Definition recPlain (g : Getter) : Implementation :=
  NewImplementation
    {| Getter_ := g; ObjectType := objectType; EventCh := eventCh;
       NamespacedNameFilter := None;
       WebhookValidator := None;
       EventRecorder_ := fakeRecorder |}.

(** What a test observes of a call: the result, the events received from the
    channel, the number of calls of [Eventf]. *)
Definition observed (r : Implementation) (s : sched.Sched)
    (ctx : context.Context) (nsname : types.NamespacedName)
    : Outcome * list events.Event * nat :=
  let run := exec (Reconcile r s ctx (request nsname)) heap0 in
  (value run, map snd (sends (effects run)), length (recorded (effects run))).

Definition upserted : events.Event :=
  events.Upsert
    {| events.Resource :=
         {| client.elem := HTTPRoute; client.ptr := 2%positive |} |}.

Definition deleted (nsname : types.NamespacedName) : events.Event :=
  events.Delete
    {| events.Type_ := objectType; events.NamespacedName := nsname |}.

(** A template that is not a zero value: [newObject] must not copy it. *)
Definition heapWithFilledTemplate : Heap := {[ 1%positive := hr1 ]}.

(** Group=gateway.nginx.org, Version=v1alpha1 *)
Definition SchemeGroupVersion : schema.GroupVersion :=
  {| schema.gv_Group := "gateway.nginx.org"; schema.gv_Version := "v1alpha1" |}.

(** A factory that lists the informers it has been asked for. *)
Definition gatewayConfigsInformer (f : list string) : string * list string :=
  ("gatewayconfigs", "gatewayconfigs" :: f).

Definition getIndexer (i : string) : string := i +:+ "/indexer".

End fixtures.

(** * Equations of [Reconcile] *)
Module reconciler_facts.

Import apierrors reconciler.

Local Open Scope list_scope.

Ltac run := cbv beta iota zeta delta
  [exec Reconcile mbind M_bind mret M_ret logInfo logError emit callFilter
   callGet callValidator newObject alloc load store return_ value heap effects
   negb app fst snd cfg NamespacedNameFilter WebhookValidator Getter_
   ObjectType EventCh EventRecorder_ client.elem client.ptr
   fetch_effects fetch_heap validator_effects rejection_effects select_effects
   select_outcome fresh_object delete_event upsert_event
   allowed fetch validation].

(** A filter that rejects the identity ends the call at once. *)
Lemma Reconcile_filtered r s ctx req (h : Heap) filter :
  NamespacedNameFilter (cfg r) = Some filter →
  fst (filter (reconcile.NamespacedName req)) = false →
  exec (Reconcile r s ctx req) h =
  mkRun (Returned reconcile.empty None) h
    [LogInfo "Reconciling the resource";
     FilterCall (reconcile.NamespacedName req);
     LogInfo (snd (filter (reconcile.NamespacedName req)))].
Proof.
  destruct r as [[g [ty tp] ch fl va rc]]; simpl. intros -> Hf.
  run. destruct (filter _) as [b msg]; simpl in Hf; subst b. reflexivity.
Qed.

Ltac start r Ha Hf :=
  destruct r as [[g [ty tp] ch fl va rc]];
  unfold allowed, fetch, validation in *; simpl in *;
  run;
  destruct fl as [f|];
  [ destruct (f _) as [b msg]; simpl in Ha; subst b | ];
  run; rewrite lookup_total_insert_eq, insert_insert_eq;
  destruct (Get g _ _ ty _) as [v oe]; simpl in Hf; subst oe; run.

(** A fetch that fails, and not with not-found, ends the call with the
    error. *)
Lemma Reconcile_fetch_failed r s ctx req (h : Heap) err :
  allowed r req = true →
  snd (fetch r ctx req) = Some err →
  IsNotFound err = false →
  exec (Reconcile r s ctx req) h =
  mkRun (Returned reconcile.empty (Some err)) (fetch_heap r ctx req h)
    (fetch_effects r req h ++ [LogError err "Failed to get the resource"]).
Proof.
  intros Ha Hf Hn. start r Ha Hf; rewrite Hn; reflexivity.
Qed.

(** A fetch that finds nothing: the delete event is offered to the channel. *)
Lemma Reconcile_not_found r s ctx req (h : Heap) err :
  allowed r req = true →
  snd (fetch r ctx req) = Some err →
  IsNotFound err = true →
  exec (Reconcile r s ctx req) h =
  mkRun (select_outcome s ctx) (fetch_heap r ctx req h)
    (fetch_effects r req h ++
     select_effects r s ctx (delete_event r req) "Deleted").
Proof.
  intros Ha Hf Hn.
  start r Ha Hf; rewrite Hn; run;
    destruct (sched.select ctx s) as [[]|]; reflexivity.
Qed.

(** A fetched object that the validator accepts, or that no validator
    examines: the upsert event is offered to the channel. *)
Lemma Reconcile_found_valid r s ctx req (h : Heap) :
  allowed r req = true →
  snd (fetch r ctx req) = None →
  validation r (fst (fetch r ctx req)) = None →
  exec (Reconcile r s ctx req) h =
  mkRun (select_outcome s ctx) (fetch_heap r ctx req h)
    (fetch_effects r req h ++ validator_effects r h ++
     select_effects r s ctx (upsert_event r h) "Upserted").
Proof.
  intros Ha Hf Hv.
  start r Ha Hf; simpl in Hv; destruct va as [validator|]; run;
    rewrite ?lookup_total_insert_eq, ?Hv; run;
    destruct (sched.select ctx s) as [[]|]; reflexivity.
Qed.

(** A fetched object that the validator rejects: the rejection is logged and
    recorded, then the delete event is offered to the channel. *)
Lemma Reconcile_rejected r s ctx req (h : Heap) verr :
  allowed r req = true →
  snd (fetch r ctx req) = None →
  validation r (fst (fetch r ctx req)) = Some verr →
  exec (Reconcile r s ctx req) h =
  mkRun (select_outcome s ctx) (fetch_heap r ctx req h)
    (fetch_effects r req h ++ validator_effects r h ++
     rejection_effects r h verr ++
     select_effects r s ctx (delete_event r req) "Deleted").
Proof.
  intros Ha Hf Hv.
  start r Ha Hf; simpl in Hv; destruct va as [validator|]; try discriminate; run;
    rewrite ?lookup_total_insert_eq, ?Hv; run;
    destruct (sched.select ctx s) as [[]|]; reflexivity.
Qed.

(** *** Observations of the stages *)

Lemma sends_app t1 t2 : sends (t1 ++ t2) = sends t1 ++ sends t2.
Proof.
  induction t1 as [|e t1 IH]; [reflexivity|].
  destruct e; simpl; rewrite IH; reflexivity.
Qed.

Lemma recorded_app t1 t2 : recorded (t1 ++ t2) = recorded t1 ++ recorded t2.
Proof.
  induction t1 as [|e t1 IH]; [reflexivity|].
  destruct e; simpl; rewrite IH; reflexivity.
Qed.

Lemma sends_fetch r req (h : Heap) : sends (fetch_effects r req h) = [].
Proof. unfold fetch_effects. destruct (NamespacedNameFilter _); reflexivity. Qed.

Lemma sends_validator r (h : Heap) : sends (validator_effects r h) = [].
Proof. unfold validator_effects. destruct (WebhookValidator _); reflexivity. Qed.

Lemma sends_rejection r (h : Heap) verr : sends (rejection_effects r h verr) = [].
Proof. reflexivity. Qed.

Lemma sends_select r s ctx e op :
  sends (select_effects r s ctx e op) =
  match sched.select ctx s with
  | Some sched.CaseSend => [(EventCh (cfg r), e)]
  | _ => []
  end.
Proof. unfold select_effects. destruct (sched.select ctx s) as [[]|]; reflexivity. Qed.

Lemma recorded_fetch r req (h : Heap) : recorded (fetch_effects r req h) = [].
Proof. unfold fetch_effects. destruct (NamespacedNameFilter _); reflexivity. Qed.

Lemma recorded_validator r (h : Heap) : recorded (validator_effects r h) = [].
Proof. unfold validator_effects. destruct (WebhookValidator _); reflexivity. Qed.

Lemma recorded_rejection r (h : Heap) verr :
  recorded (rejection_effects r h verr) = [warning r h verr].
Proof. reflexivity. Qed.

Lemma recorded_select r s ctx e op : recorded (select_effects r s ctx e op) = [].
Proof. unfold select_effects. destruct (sched.select ctx s) as [[]|]; reflexivity. Qed.

Create Rewrite HintDb observe.
#[local] Hint Rewrite sends_app sends_fetch sends_validator sends_rejection
  sends_select recorded_app recorded_fetch recorded_validator
  recorded_rejection recorded_select : observe.

(** The [select] statement when the context is never cancelled. *)
Lemma select_live ctx s t :
  context.done_at ctx = None → sched.ready_at s = Some t →
  sched.select ctx s = Some sched.CaseSend.
Proof. unfold sched.select. intros -> ->. reflexivity. Qed.

(** The [select] statement when the context is cancelled on entry. *)
Lemma select_cancelled ctx s :
  context.done_at ctx = Some 0 →
  sched.select ctx s =
  if decide (sched.ready_at s = Some 0) then Some (sched.coin s)
  else Some sched.CaseDone.
Proof.
  unfold sched.select. intros ->.
  destruct (sched.ready_at s) as [[|n]|]; reflexivity.
Qed.

(** The cases of a call that passes the filter. *)
Lemma fetch_cases r ctx req :
  (∃ err, snd (fetch r ctx req) = Some err ∧ IsNotFound err = false) ∨
  (∃ err, snd (fetch r ctx req) = Some err ∧ IsNotFound err = true) ∨
  (snd (fetch r ctx req) = None ∧
   ∃ verr, validation r (fst (fetch r ctx req)) = Some verr) ∨
  (snd (fetch r ctx req) = None ∧
   validation r (fst (fetch r ctx req)) = None).
Proof.
  destruct (snd (fetch r ctx req)) as [err|].
  - destruct (IsNotFound err) eqn:Hn; eauto.
  - destruct (validation r (fst (fetch r ctx req))) as [verr|]; eauto 6.
Qed.

(** * The tests of implementation_test.go, run on the model *)
Section tests.

Import fixtures.

Variable c : sched.SelectCase.

Let ok : Outcome := Returned reconcile.empty None.

Example should_upsert_HTTPRoute :
  observed (recPlain (getReturnsHRForHR hr1)) (polling c)
    context.Background hr1NsName = (ok, [upserted], 0).
Proof. reflexivity. Qed.

Example should_delete_HTTPRoute :
  observed (recPlain getReturnsNotFoundErrorForHR) (polling c)
    context.Background hr1NsName = (ok, [deleted hr1NsName], 0).
Proof. reflexivity. Qed.

Example filter_should_upsert_HTTPRoute :
  observed (recWithFilter (getReturnsHRForHR hr1)) (polling c)
    context.Background hr1NsName = (ok, [upserted], 0).
Proof. reflexivity. Qed.

Example filter_should_not_upsert_HTTPRoute :
  observed (recWithFilter (getReturnsHRForHR hr2)) (polling c)
    context.Background hr2NsName = (ok, [], 0).
Proof. reflexivity. Qed.

Example filter_should_not_delete_HTTPRoute :
  observed (recWithFilter getReturnsNotFoundErrorForHR) (polling c)
    context.Background hr2NsName = (ok, [], 0).
Proof. reflexivity. Qed.

Example should_upsert_valid_HTTPRoute :
  observed (recWithValidator (getReturnsHRForHR hr1)) (polling c)
    context.Background hr1NsName = (ok, [upserted], 0).
Proof. reflexivity. Qed.

Example should_reject_invalid_HTTPRoute :
  observed (recWithValidator (getReturnsHRForHR hr2)) (polling c)
    context.Background hr2NsName = (ok, [deleted hr2NsName], 1).
Proof. reflexivity. Qed.

(** [Expect(obj).To(Equal(hr2))]: the recorded object points to [hr2]. *)
Example should_reject_invalid_HTTPRoute_object :
  let run := exec (Reconcile (recWithValidator (getReturnsHRForHR hr2))
                     (polling c) context.Background (request hr2NsName))
                  heap0 in
  (λ w, (λ o, heap run !! client.ptr o) <$> rec_object w)
    <$> recorded (effects run) = [Some (Some hr2)].
Proof. reflexivity. Qed.

Example should_delete_HTTPRoutes :
  observed (recWithValidator getReturnsNotFoundErrorForHR) (polling c)
    context.Background hr2NsName = (ok, [deleted hr2NsName], 0).
Proof. reflexivity. Qed.

Example should_not_reconcile_when_Getter_returns_error :
  observed (recWithValidator getReturnsError) (polling c)
    context.Background hr1NsName =
  (Returned reconcile.empty (Some getError), [], 0).
Proof. reflexivity. Qed.

Example should_not_block_upserting_valid_HTTPRoute :
  observed (recWithValidator (getReturnsHRForHR hr1)) (polling c)
    context.Cancelled hr1NsName = (ok, [], 0).
Proof. reflexivity. Qed.

Example should_not_block_deleting_valid_HTTPRoute :
  observed (recWithValidator getReturnsNotFoundErrorForHR) (polling c)
    context.Cancelled hr1NsName = (ok, [], 0).
Proof. reflexivity. Qed.

Example should_not_block_upserting_invalid_HTTPRoute :
  observed (recWithValidator (getReturnsHRForHR hr2)) (polling c)
    context.Cancelled hr2NsName = (ok, [], 1).
Proof. reflexivity. Qed.

End tests.

(** * The claims *)

(** C1. When the identity passes the filter, the fetch answers not-found and
    the context is never cancelled, [Reconcile] sends exactly one event, the
    [DeleteEvent] of the configured type and the requested name, on the
    configured channel, and returns [reconcile.Result{}] and a nil error. The
    channel is taken to accept the send at some instant: until then the call
    waits in the [select]. *)
Theorem C1_not_found_one_delete r s ctx req (h : Heap) err t :
  allowed r req = true →
  snd (fetch r ctx req) = Some err →
  IsNotFound err = true →
  context.done_at ctx = None →
  sched.ready_at s = Some t →
  let run := exec (Reconcile r s ctx req) h in
  value run = Returned reconcile.empty None ∧
  sends (effects run) =
    [(EventCh (cfg r),
      events.Delete {| events.Type_ := ObjectType (cfg r);
                       events.NamespacedName := reconcile.NamespacedName req |})].
Proof.
  intros Ha Hf Hn Hd Hr run. subst run.
  rewrite (Reconcile_not_found _ _ _ _ _ _ Ha Hf Hn). cbn [value effects].
  autorewrite with observe. unfold select_outcome.
  rewrite (select_live _ _ _ Hd Hr). split; reflexivity.
Qed.

Lemma C1_witness :
  let r := fixtures.recWithValidator fixtures.getReturnsNotFoundErrorForHR in
  let run := exec (Reconcile r (fixtures.receiverWaiting sched.CaseSend)
                     context.Background (fixtures.request fixtures.hr1NsName))
                  fixtures.heap0 in
  value run = Returned reconcile.empty None ∧
  sends (effects run) =
    [(fixtures.eventCh,
      events.Delete {| events.Type_ := fixtures.objectType;
                       events.NamespacedName := fixtures.hr1NsName |})].
Proof.
  apply (C1_not_found_one_delete
           (fixtures.recWithValidator fixtures.getReturnsNotFoundErrorForHR)
           (fixtures.receiverWaiting sched.CaseSend) context.Background
           (fixtures.request fixtures.hr1NsName) fixtures.heap0
           (NewNotFound "not found") 0); reflexivity.
Defined.

(** C4. When the fetch fails with an error that is not a not-found,
    [Reconcile] returns that very error, whatever the state of the context and
    of the channel, and sends no event. *)
Theorem C4_fetch_error_propagates r s ctx req (h : Heap) err :
  allowed r req = true →
  snd (fetch r ctx req) = Some err →
  IsNotFound err = false →
  let run := exec (Reconcile r s ctx req) h in
  value run = Returned reconcile.empty (Some err) ∧
  sends (effects run) = [].
Proof.
  intros Ha Hf Hn run. subst run.
  rewrite (Reconcile_fetch_failed _ s _ _ h _ Ha Hf Hn). cbn [value effects].
  autorewrite with observe. split; reflexivity.
Qed.

Lemma C4_witness :
  let r := fixtures.recWithValidator fixtures.getReturnsError in
  let run := exec (Reconcile r (fixtures.receiverWaiting sched.CaseSend)
                     context.Background (fixtures.request fixtures.hr1NsName))
                  fixtures.heap0 in
  value run = Returned reconcile.empty (Some fixtures.getError) ∧
  sends (effects run) = [].
Proof.
  apply (C4_fetch_error_propagates
           (fixtures.recWithValidator fixtures.getReturnsError)
           (fixtures.receiverWaiting sched.CaseSend) context.Background
           (fixtures.request fixtures.hr1NsName) fixtures.heap0
           fixtures.getError); reflexivity.
Defined.

(** C5. When a filter is configured and rejects the identity, [Reconcile]
    logs the filter's reason and returns [reconcile.Result{}] and a nil error:
    it sends no event, calls neither the Getter nor the validator nor the
    event recorder, and leaves the heap as it was. *)
Theorem C5_filter_rejection_stops r s ctx req (h : Heap) filter :
  NamespacedNameFilter (cfg r) = Some filter →
  fst (filter (reconcile.NamespacedName req)) = false →
  let run := exec (Reconcile r s ctx req) h in
  value run = Returned reconcile.empty None ∧
  sends (effects run) = [] ∧
  List.filter is_call (effects run) = [] ∧
  List.filter is_comm (effects run) = [] ∧
  LogInfo (snd (filter (reconcile.NamespacedName req))) ∈ effects run ∧
  heap run = h.
Proof.
  intros Hfl Hrej run. subst run.
  rewrite (Reconcile_filtered _ s ctx _ h _ Hfl Hrej). cbn.
  repeat split; try reflexivity. set_solver.
Qed.

Lemma C5_witness :
  let r := fixtures.recWithFilter (fixtures.getReturnsHRForHR fixtures.hr2) in
  let run := exec (Reconcile r (fixtures.receiverWaiting sched.CaseSend)
                     context.Background (fixtures.request fixtures.hr2NsName))
                  fixtures.heap0 in
  value run = Returned reconcile.empty None ∧
  sends (effects run) = [] ∧
  List.filter is_call (effects run) = [] ∧
  List.filter is_comm (effects run) = [] ∧
  LogInfo "ignore" ∈ effects run ∧
  heap run = fixtures.heap0.
Proof.
  apply (C5_filter_rejection_stops
           (fixtures.recWithFilter (fixtures.getReturnsHRForHR fixtures.hr2))
           (fixtures.receiverWaiting sched.CaseSend) context.Background
           (fixtures.request fixtures.hr2NsName) fixtures.heap0
           fixtures.filter); reflexivity.
Defined.

(** Every call sends at most one event. *)
Lemma sends_at_most_one r s ctx req (h : Heap) :
  (length (sends (effects (exec (Reconcile r s ctx req) h))) ≤ 1)%nat.
Proof.
  destruct (allowed r req) eqn:Ha.
  - destruct (fetch_cases r ctx req)
      as [(err & Hf & Hn)|[(err & Hf & Hn)|[(Hf & verr & Hv)|(Hf & Hv)]]].
    + rewrite (Reconcile_fetch_failed _ s _ _ h _ Ha Hf Hn). cbn [effects].
      autorewrite with observe. simpl. lia.
    + rewrite (Reconcile_not_found _ s _ _ h _ Ha Hf Hn). cbn [effects].
      autorewrite with observe.
      destruct (sched.select ctx s) as [[]|]; simpl; lia.
    + rewrite (Reconcile_rejected _ s _ _ h _ Ha Hf Hv). cbn [effects].
      autorewrite with observe.
      destruct (sched.select ctx s) as [[]|]; simpl; lia.
    + rewrite (Reconcile_found_valid _ s _ _ h Ha Hf Hv). cbn [effects].
      autorewrite with observe.
      destruct (sched.select ctx s) as [[]|]; simpl; lia.
  - unfold allowed in Ha.
    destruct (NamespacedNameFilter (cfg r)) as [filter|] eqn:Hfl; [|discriminate].
    rewrite (Reconcile_filtered _ s ctx _ h _ Hfl Ha). simpl. lia.
Qed.

(** C6. Every call of [Reconcile] sends at most one event. When the filter
    does not reject, the fetch does not fail with an error other than
    not-found and the context is never cancelled, it sends exactly one: the
    [UpsertEvent] of the fetched object if the object was found and is valid,
    the [DeleteEvent] otherwise. The channel is taken to accept the send at
    some instant. *)
Theorem C6_at_most_one_exactly_one r s ctx req (h : Heap) :
  let run := exec (Reconcile r s ctx req) h in
  (length (sends (effects run)) ≤ 1)%nat ∧
  (allowed r req = true →
   fetch_error r ctx req = None →
   context.done_at ctx = None →
   (∃ t, sched.ready_at s = Some t) →
   sends (effects run) =
     [(EventCh (cfg r),
       match snd (fetch r ctx req), validation r (fst (fetch r ctx req)) with
       | None, None =>
           events.Upsert
             {| events.Resource :=
                  {| client.elem := client.elem (ObjectType (cfg r));
                     client.ptr := fresh (dom h) |} |}
       | _, _ =>
           events.Delete
             {| events.Type_ := ObjectType (cfg r);
                events.NamespacedName := reconcile.NamespacedName req |}
       end)]).
Proof.
  intros run. subst run. split; [apply sends_at_most_one|].
  intros Ha He Hd [t Hr].
  pose proof (select_live _ _ _ Hd Hr) as Hs.
  unfold fetch_error in He. rewrite Ha in He.
  destruct (fetch_cases r ctx req)
    as [(err & Hf & Hn)|[(err & Hf & Hn)|[(Hf & verr & Hv)|(Hf & Hv)]]].
  - rewrite Hf, Hn in He. discriminate.
  - rewrite (Reconcile_not_found _ s _ _ h _ Ha Hf Hn). cbn [effects].
    autorewrite with observe. rewrite Hs, Hf. reflexivity.
  - rewrite (Reconcile_rejected _ s _ _ h _ Ha Hf Hv). cbn [effects].
    autorewrite with observe. rewrite Hs, Hf, Hv. reflexivity.
  - rewrite (Reconcile_found_valid _ s _ _ h Ha Hf Hv). cbn [effects].
    autorewrite with observe. rewrite Hs, Hf, Hv. reflexivity.
Qed.

Lemma C6_witness :
  let r := fixtures.recWithValidator (fixtures.getReturnsHRForHR fixtures.hr1) in
  let run := exec (Reconcile r (fixtures.receiverWaiting sched.CaseDone)
                     context.Background (fixtures.request fixtures.hr1NsName))
                  fixtures.heap0 in
  (length (sends (effects run)) ≤ 1)%nat ∧
  sends (effects run) =
    [(fixtures.eventCh,
      events.Upsert
        {| events.Resource :=
             {| client.elem := fixtures.HTTPRoute; client.ptr := 2%positive |} |})].
Proof.
  pose proof (C6_at_most_one_exactly_one
           (fixtures.recWithValidator (fixtures.getReturnsHRForHR fixtures.hr1))
           (fixtures.receiverWaiting sched.CaseDone) context.Background
           (fixtures.request fixtures.hr1NsName) fixtures.heap0) as [Hle Hone].
  split; [exact Hle|].
  apply Hone; [reflexivity|reflexivity|reflexivity|].
  exists 0. reflexivity.
Defined.

(** The heap of a call: untouched when the filter rejects, and one more
    object, the fetched one, otherwise. *)
Lemma Reconcile_heap r s ctx req (h : Heap) :
  heap (exec (Reconcile r s ctx req) h) =
  if allowed r req then fetch_heap r ctx req h else h.
Proof.
  destruct (allowed r req) eqn:Ha.
  - destruct (fetch_cases r ctx req)
      as [(err & Hf & Hn)|[(err & Hf & Hn)|[(Hf & verr & Hv)|(Hf & Hv)]]].
    + rewrite (Reconcile_fetch_failed _ s _ _ h _ Ha Hf Hn). reflexivity.
    + rewrite (Reconcile_not_found _ s _ _ h _ Ha Hf Hn). reflexivity.
    + rewrite (Reconcile_rejected _ s _ _ h _ Ha Hf Hv). reflexivity.
    + rewrite (Reconcile_found_valid _ s _ _ h Ha Hf Hv). reflexivity.
  - unfold allowed in Ha.
    destruct (NamespacedNameFilter (cfg r)) as [filter|] eqn:Hfl; [|discriminate].
    rewrite (Reconcile_filtered _ s ctx _ h _ Hfl Ha). reflexivity.
Qed.

Lemma fetch_heap_fresh r ctx req (h : Heap) :
  fetch_heap r ctx req h !! fresh (dom h) = Some (fst (fetch r ctx req)).
Proof. unfold fetch_heap. apply lookup_insert_eq. Qed.

Lemma fresh_not_live (h : Heap) : h !! fresh (dom h) = None.
Proof. apply not_elem_of_dom, is_fresh. Qed.

Lemma fetch_heap_live r ctx req (h : Heap) l :
  is_Some (h !! l) → fetch_heap r ctx req h !! l = h !! l.
Proof.
  intros Hl. unfold fetch_heap. apply lookup_insert_ne.
  intros <-. rewrite fresh_not_live in Hl. destruct Hl; discriminate.
Qed.

(** A call leaves every live object as it was. *)
Lemma Reconcile_frame r s ctx req (h : Heap) l :
  is_Some (h !! l) → heap (exec (Reconcile r s ctx req) h) !! l = h !! l.
Proof.
  intros Hl. rewrite Reconcile_heap.
  destruct (allowed r req); [apply fetch_heap_live, Hl|reflexivity].
Qed.

(** C7. Every [UpsertEvent] that [Reconcile] sends carries the object the
    call has fetched: its [Resource] is the pointer that [newObject] has
    allocated for this call, of the configured type, and it points to what the
    Getter has written. Every [DeleteEvent] that it sends carries the
    configured [ObjectType] and the name of the request, and nothing else. *)
Theorem C7_event_payloads r s ctx req (h : Heap) ch e :
  let run := exec (Reconcile r s ctx req) h in
  (ch, e) ∈ sends (effects run) →
  match e with
  | events.Upsert u =>
      snd (fetch r ctx req) = None ∧
      client.elem (events.Resource u) = client.elem (ObjectType (cfg r)) ∧
      h !! client.ptr (events.Resource u) = None ∧
      heap run !! client.ptr (events.Resource u) =
        Some (fst (Get (Getter_ (cfg r)) ctx (reconcile.NamespacedName req)
                     (client.elem (events.Resource u))
                     (client.zero (client.elem (events.Resource u)))))
  | events.Delete d =>
      d = {| events.Type_ := ObjectType (cfg r);
             events.NamespacedName := reconcile.NamespacedName req |}
  end.
Proof.
  intros run. subst run. rewrite Reconcile_heap.
  destruct (allowed r req) eqn:Ha.
  - destruct (fetch_cases r ctx req)
      as [(err & Hf & Hn)|[(err & Hf & Hn)|[(Hf & verr & Hv)|(Hf & Hv)]]].
    + rewrite (Reconcile_fetch_failed _ s _ _ h _ Ha Hf Hn). cbn [effects].
      autorewrite with observe. simpl. intros []%elem_of_nil.
    + rewrite (Reconcile_not_found _ s _ _ h _ Ha Hf Hn). cbn [effects].
      autorewrite with observe.
      destruct (sched.select ctx s) as [[]|]; simpl; intros Hin;
        try (apply elem_of_nil in Hin; destruct Hin).
      apply list_elem_of_singleton in Hin. injection Hin as -> ->. reflexivity.
    + rewrite (Reconcile_rejected _ s _ _ h _ Ha Hf Hv). cbn [effects].
      autorewrite with observe.
      destruct (sched.select ctx s) as [[]|]; simpl; intros Hin;
        try (apply elem_of_nil in Hin; destruct Hin).
      apply list_elem_of_singleton in Hin. injection Hin as -> ->. reflexivity.
    + rewrite (Reconcile_found_valid _ s _ _ h Ha Hf Hv). cbn [effects].
      autorewrite with observe.
      destruct (sched.select ctx s) as [[]|]; simpl; intros Hin;
        try (apply elem_of_nil in Hin; destruct Hin).
      apply list_elem_of_singleton in Hin. injection Hin as -> ->.
      cbn [upsert_event fresh_object events.Resource client.elem client.ptr].
      split; [exact Hf|]. split; [reflexivity|].
      split; [apply fresh_not_live|]. apply fetch_heap_fresh.
  - unfold allowed in Ha.
    destruct (NamespacedNameFilter (cfg r)) as [filter|] eqn:Hfl; [|discriminate].
    rewrite (Reconcile_filtered _ s ctx _ h _ Hfl Ha). simpl.
    intros []%elem_of_nil.
Qed.

Lemma C7_witness :
  let r := fixtures.recWithValidator (fixtures.getReturnsHRForHR fixtures.hr1) in
  let run := exec (Reconcile r (fixtures.receiverWaiting sched.CaseSend)
                     context.Background (fixtures.request fixtures.hr1NsName))
                  fixtures.heap0 in
  (fixtures.eventCh, fixtures.upserted) ∈ sends (effects run) ∧
  fixtures.heap0 !! 2%positive = None ∧
  heap run !! 2%positive = Some fixtures.hr1.
Proof.
  assert (Hin : (fixtures.eventCh, fixtures.upserted) ∈
    sends (effects (exec (Reconcile
      (fixtures.recWithValidator (fixtures.getReturnsHRForHR fixtures.hr1))
      (fixtures.receiverWaiting sched.CaseSend) context.Background
      (fixtures.request fixtures.hr1NsName)) fixtures.heap0)))
    by (vm_compute; apply list_elem_of_here).
  destruct (C7_event_payloads
              (fixtures.recWithValidator (fixtures.getReturnsHRForHR fixtures.hr1))
              (fixtures.receiverWaiting sched.CaseSend) context.Background
              (fixtures.request fixtures.hr1NsName) fixtures.heap0
              fixtures.eventCh fixtures.upserted Hin)
    as (_ & _ & Hfresh & Hheap).
  split; [exact Hin|]. split; [exact Hfresh|exact Hheap].
Defined.

(** C8. Unless the fetch fails with an error other than not-found,
    [Reconcile] returns [reconcile.Result{}] and a nil error: when the filter
    rejects, and, past the filter, as soon as its [select] statement proceeds,
    by the send (upsert, not-found delete, validation-failure delete) or by
    the cancellation of the context. The [select] statement proceeds when the
    context is cancelled at some instant or the channel takes the send at some
    instant. *)
Theorem C8_nil_error_outcomes r s ctx req (h : Heap) :
  fetch_error r ctx req = None →
  allowed r req = false ∨
  context.done_at ctx ≠ None ∨ sched.ready_at s ≠ None →
  value (exec (Reconcile r s ctx req) h) = Returned reconcile.empty None.
Proof.
  intros He Hlive. unfold fetch_error in He.
  destruct (allowed r req) eqn:Ha.
  - assert (Hs : select_outcome s ctx = Returned reconcile.empty None).
    { destruct Hlive as [?|Hlive]; [discriminate|].
      unfold select_outcome, sched.select.
      destruct (context.done_at ctx) as [c|], (sched.ready_at s) as [t|];
        try reflexivity.
      - destruct (c <? t)%nat, (t <? c)%nat; reflexivity.
      - destruct Hlive as [Hd|Hr]; [destruct Hd | destruct Hr]; reflexivity. }
    destruct (fetch_cases r ctx req)
      as [(err & Hf & Hn)|[(err & Hf & Hn)|[(Hf & verr & Hv)|(Hf & Hv)]]].
    + rewrite Hf, Hn in He. discriminate.
    + rewrite (Reconcile_not_found _ s _ _ h _ Ha Hf Hn). exact Hs.
    + rewrite (Reconcile_rejected _ s _ _ h _ Ha Hf Hv). exact Hs.
    + rewrite (Reconcile_found_valid _ s _ _ h Ha Hf Hv). exact Hs.
  - unfold allowed in Ha.
    destruct (NamespacedNameFilter (cfg r)) as [filter|] eqn:Hfl; [|discriminate].
    rewrite (Reconcile_filtered _ s ctx _ h _ Hfl Ha). reflexivity.
Qed.

Lemma C8_witness :
  value (exec (Reconcile
                 (fixtures.recWithValidator
                    (fixtures.getReturnsHRForHR fixtures.hr2))
                 fixtures.noReceiver context.Cancelled
                 (fixtures.request fixtures.hr2NsName)) fixtures.heap0) =
  Returned reconcile.empty None.
Proof.
  apply (C8_nil_error_outcomes
           (fixtures.recWithValidator (fixtures.getReturnsHRForHR fixtures.hr2))
           fixtures.noReceiver context.Cancelled
           (fixtures.request fixtures.hr2NsName) fixtures.heap0).
  - reflexivity.
  - right. left. discriminate.
Defined.

(** C3, as the code has it. A call that reaches its [select] statement with a
    context that is already cancelled returns at once, with
    [reconcile.Result{}] and a nil error, even if the channel never takes the
    send. It sends no event when the channel cannot take the send at that
    moment. When the channel can, both communications of the [select] can
    proceed and Go picks one of them: no event is sent if it picks the
    cancellation, and the event is sent if it picks the send. *)
Theorem C3_cancelled_returns r s ctx req (h : Heap) :
  allowed r req = true →
  fetch_error r ctx req = None →
  context.done_at ctx = Some 0 →
  let run := exec (Reconcile r s ctx req) h in
  value run = Returned reconcile.empty None ∧
  (sched.ready_at s ≠ Some 0 → sends (effects run) = []) ∧
  (sched.coin s = sched.CaseDone → sends (effects run) = []) ∧
  (sched.ready_at s = Some 0 → sched.coin s = sched.CaseSend →
   length (sends (effects run)) = 1).
Proof.
  intros Ha He Hd run. subst run.
  pose proof (select_cancelled ctx s Hd) as Hs.
  unfold fetch_error in He. rewrite Ha in He.
  assert (Hsel : ∀ e op,
    (sched.ready_at s ≠ Some 0 → sends (select_effects r s ctx e op) = []) ∧
    (sched.coin s = sched.CaseDone → sends (select_effects r s ctx e op) = []) ∧
    (sched.ready_at s = Some 0 → sched.coin s = sched.CaseSend →
     length (sends (select_effects r s ctx e op)) = 1)).
  { intros e op. rewrite sends_select, Hs.
    destruct (decide (sched.ready_at s = Some 0)) as [Hr|Hr].
    - split; [intros []; exact Hr|].
      split; [intros ->; reflexivity|]. intros _ ->. reflexivity.
    - split; [reflexivity|]. split; [reflexivity|]. intros Hr'. destruct (Hr Hr'). }
  assert (Hout : select_outcome s ctx = Returned reconcile.empty None).
  { unfold select_outcome. rewrite Hs. destruct (decide _); reflexivity. }
  destruct (fetch_cases r ctx req)
    as [(err & Hf & Hn)|[(err & Hf & Hn)|[(Hf & verr & Hv)|(Hf & Hv)]]].
  - rewrite Hf, Hn in He. discriminate.
  - rewrite (Reconcile_not_found _ s _ _ h _ Ha Hf Hn). cbn [value effects].
    rewrite !sends_app, sends_fetch. split; [exact Hout|apply Hsel].
  - rewrite (Reconcile_rejected _ s _ _ h _ Ha Hf Hv). cbn [value effects].
    rewrite !sends_app, sends_fetch, sends_validator, sends_rejection.
    split; [exact Hout|apply Hsel].
  - rewrite (Reconcile_found_valid _ s _ _ h Ha Hf Hv). cbn [value effects].
    rewrite !sends_app, sends_fetch, sends_validator.
    split; [exact Hout|apply Hsel].
Qed.

Lemma C3_witness :
  let run := exec (Reconcile
                     (fixtures.recWithValidator
                        (fixtures.getReturnsHRForHR fixtures.hr1))
                     fixtures.noReceiver context.Cancelled
                     (fixtures.request fixtures.hr1NsName)) fixtures.heap0 in
  value run = Returned reconcile.empty None ∧ sends (effects run) = [].
Proof.
  destruct (C3_cancelled_returns
              (fixtures.recWithValidator (fixtures.getReturnsHRForHR fixtures.hr1))
              fixtures.noReceiver context.Cancelled
              (fixtures.request fixtures.hr1NsName) fixtures.heap0)
    as (Hv & Hfull & _); [reflexivity|reflexivity|reflexivity|].
  split; [exact Hv|]. apply Hfull. discriminate.
Defined.

(** C3, as the spec has it, fails: the context is already cancelled, a
    receiver is waiting on the channel, Go picks the send, and the upsert
    event is emitted. *)
Lemma C3_counterexample :
  let r := fixtures.recWithValidator (fixtures.getReturnsHRForHR fixtures.hr1) in
  let s := fixtures.receiverWaiting sched.CaseSend in
  let req := fixtures.request fixtures.hr1NsName in
  let run := exec (Reconcile r s context.Cancelled req) fixtures.heap0 in
  allowed r req = true ∧
  fetch_error r context.Cancelled req = None ∧
  context.done_at context.Cancelled = Some 0 ∧
  sends (effects run) =
    [(fixtures.eventCh,
      events.Upsert
        {| events.Resource :=
             {| client.elem := fixtures.HTTPRoute; client.ptr := 2%positive |} |})] ∧
  sends (effects run) ≠ [].
Proof.
  vm_compute. repeat split; discriminate.
Qed.

(** C2, as the code has it. When the object is fetched and the configured
    validator rejects it, [Reconcile] records exactly one warning against the
    fetched object and offers the [DeleteEvent] of the request, never an
    [UpsertEvent], to the channel: that event is sent when the [select]
    statement takes the send, as it does when the context is never cancelled
    and the channel accepts, and nothing is sent when the cancellation of the
    context comes first. A call whose fetch answers not-found records no
    warning. *)
Theorem C2_rejected_delete_and_warning r s ctx req (h : Heap) verr :
  allowed r req = true →
  snd (fetch r ctx req) = None →
  validation r (fst (fetch r ctx req)) = Some verr →
  let run := exec (Reconcile r s ctx req) h in
  let obj := {| client.elem := client.elem (ObjectType (cfg r));
                client.ptr := fresh (dom h) |} in
  let deleted :=
    events.Delete {| events.Type_ := ObjectType (cfg r);
                     events.NamespacedName := reconcile.NamespacedName req |} in
  recorded (effects run) =
    [{| rec_recorder := EventRecorder_ (cfg r);
        rec_object := Some obj;
        rec_eventtype := "Warning";
        rec_reason := "Rejected";
        rec_messageFmt :=
          webhookValidationErrorLogMsg +:+ "; validation error: %v";
        rec_args := [verr] |}] ∧
  heap run !! client.ptr obj = Some (fst (fetch r ctx req)) ∧
  sends (effects run) =
    match sched.select ctx s with
    | Some sched.CaseSend => [(EventCh (cfg r), deleted)]
    | _ => []
    end ∧
  (context.done_at ctx = None → (∃ t, sched.ready_at s = Some t) →
   sends (effects run) = [(EventCh (cfg r), deleted)]) ∧
  (∀ r' s' ctx' req' (h' : Heap) err,
     allowed r' req' = true →
     snd (fetch r' ctx' req') = Some err →
     IsNotFound err = true →
     recorded (effects (exec (Reconcile r' s' ctx' req') h')) = []).
Proof.
  intros Ha Hf Hv run obj deleted. subst run obj deleted.
  rewrite (Reconcile_rejected _ s _ _ h _ Ha Hf Hv). cbn [heap effects].
  autorewrite with observe.
  split; [reflexivity|]. split; [apply fetch_heap_fresh|].
  split; [reflexivity|]. split.
  - intros Hd [t Hr]. rewrite (select_live _ _ _ Hd Hr). reflexivity.
  - intros r' s' ctx' req' h' err Ha' Hf' Hn'.
    rewrite (Reconcile_not_found _ s' _ _ h' _ Ha' Hf' Hn'). cbn [effects].
    autorewrite with observe. reflexivity.
Qed.

Lemma C2_witness :
  let r := fixtures.recWithValidator (fixtures.getReturnsHRForHR fixtures.hr2) in
  let run := exec (Reconcile r (fixtures.receiverWaiting sched.CaseSend)
                     context.Background (fixtures.request fixtures.hr2NsName))
                  fixtures.heap0 in
  length (recorded (effects run)) = 1 ∧
  sends (effects run) =
    [(fixtures.eventCh,
      events.Delete {| events.Type_ := fixtures.objectType;
                       events.NamespacedName := fixtures.hr2NsName |})].
Proof.
  destruct (C2_rejected_delete_and_warning
              (fixtures.recWithValidator (fixtures.getReturnsHRForHR fixtures.hr2))
              (fixtures.receiverWaiting sched.CaseSend) context.Background
              (fixtures.request fixtures.hr2NsName) fixtures.heap0
              (errorString "test"))
    as (Hrec & _ & _ & Hsend & _); [reflexivity|reflexivity|reflexivity|].
  split.
  - rewrite Hrec. reflexivity.
  - apply Hsend; [reflexivity|]. exists 0. reflexivity.
Defined.

(** C2, as the spec has it, fails: the object is fetched, the validator
    rejects it, the context is already cancelled and the receiver polls the
    channel. The warning is recorded and no [DeleteEvent] is emitted: the
    entry "Upserting invalid HTTPRoute" of the table "Reconciler should not
    block when ctx is done" of the tests. *)
Lemma C2_counterexample :
  let r := fixtures.recWithValidator (fixtures.getReturnsHRForHR fixtures.hr2) in
  let req := fixtures.request fixtures.hr2NsName in
  let run := exec (Reconcile r (fixtures.polling sched.CaseSend)
                     context.Cancelled req)
                  fixtures.heap0 in
  allowed r req = true ∧
  snd (fetch r context.Cancelled req) = None ∧
  validation r (fst (fetch r context.Cancelled req)) = Some (errorString "test") ∧
  value run = Returned reconcile.empty None ∧
  length (recorded (effects run)) = 1 ∧
  sends (effects run) = [].
Proof.
  vm_compute. repeat split.
Qed.

Lemma before_comm_stages r s ctx req (h : Heap) mid e op :
  List.filter is_comm mid = [] →
  before_comm (fetch_effects r req h ++ validator_effects r h ++ mid ++
               select_effects r s ctx e op) =
  fetch_effects r req h ++ validator_effects r h ++ mid.
Proof.
  intros Hmid.
  assert (Hm : before_comm (mid ++ select_effects r s ctx e op) = mid).
  { induction mid as [|x mid IH]; simpl.
    - unfold select_effects. destruct (sched.select ctx s) as [[]|]; reflexivity.
    - simpl in Hmid. destruct (is_comm x); [discriminate|].
      rewrite (IH Hmid). reflexivity. }
  unfold fetch_effects, validator_effects.
  destruct (NamespacedNameFilter (cfg r)), (WebhookValidator (cfg r));
    simpl; rewrite Hm; reflexivity.
Qed.

(** C9. When the validator rejects the fetched object, the warning is
    recorded before the [select] statement: it is already recorded when the
    call reaches the first communication of the [select], and it is recorded
    exactly once in the whole call, whatever the [select] does. In particular,
    with a context that is already cancelled and a channel that cannot take
    the send, the call returns without having sent any event and the warning
    is recorded all the same. *)
Theorem C9_warning_before_select r s ctx req (h : Heap) verr :
  allowed r req = true →
  snd (fetch r ctx req) = None →
  validation r (fst (fetch r ctx req)) = Some verr →
  let run := exec (Reconcile r s ctx req) h in
  let warned :=
    [{| rec_recorder := EventRecorder_ (cfg r);
        rec_object :=
          Some {| client.elem := client.elem (ObjectType (cfg r));
                  client.ptr := fresh (dom h) |};
        rec_eventtype := "Warning";
        rec_reason := "Rejected";
        rec_messageFmt :=
          webhookValidationErrorLogMsg +:+ "; validation error: %v";
        rec_args := [verr] |}] in
  recorded (before_comm (effects run)) = warned ∧
  recorded (effects run) = warned ∧
  (context.done_at ctx = Some 0 → sched.ready_at s ≠ Some 0 →
   value run = Returned reconcile.empty None ∧
   sends (effects run) = [] ∧
   DoneRecv ∈ effects run).
Proof.
  intros Ha Hf Hv run warned. subst run warned.
  rewrite (Reconcile_rejected _ s _ _ h _ Ha Hf Hv). cbn [value effects].
  rewrite before_comm_stages by reflexivity.
  autorewrite with observe.
  split; [reflexivity|]. split; [reflexivity|].
  intros Hd Hr. unfold select_outcome, select_effects.
  rewrite (select_cancelled ctx s Hd).
  destruct (decide (sched.ready_at s = Some 0)) as [Hr'|_]; [destruct (Hr Hr')|].
  split; [reflexivity|]. split; [reflexivity|].
  rewrite !elem_of_app. right. right. right. apply list_elem_of_here.
Qed.

Lemma C9_witness :
  let r := fixtures.recWithValidator (fixtures.getReturnsHRForHR fixtures.hr2) in
  let run := exec (Reconcile r fixtures.noReceiver context.Cancelled
                     (fixtures.request fixtures.hr2NsName)) fixtures.heap0 in
  length (recorded (before_comm (effects run))) = 1 ∧
  length (recorded (effects run)) = 1 ∧
  sends (effects run) = [].
Proof.
  destruct (C9_warning_before_select
              (fixtures.recWithValidator (fixtures.getReturnsHRForHR fixtures.hr2))
              fixtures.noReceiver context.Cancelled
              (fixtures.request fixtures.hr2NsName) fixtures.heap0
              (errorString "test"))
    as (Hbefore & Hall & Hcancel); [reflexivity|reflexivity|reflexivity|].
  destruct Hcancel as (_ & Hsends & _); [reflexivity|discriminate|].
  cbv zeta. rewrite Hbefore, Hall, Hsends. repeat split.
Defined.

Lemma gets_app t1 t2 : gets (t1 ++ t2) = gets t1 ++ gets t2.
Proof.
  induction t1 as [|e t1 IH]; [reflexivity|].
  destruct e; simpl; rewrite IH; reflexivity.
Qed.

(** The Getter is called once by a call that passes the filter, with the
    requested name and the object that [newObject] has made, and never by a
    call that the filter stops. *)
Lemma Reconcile_gets r s ctx req (h : Heap) :
  gets (effects (exec (Reconcile r s ctx req) h)) =
  if allowed r req
  then [(reconcile.NamespacedName req, fresh_object r h)]
  else [].
Proof.
  assert (Hfe : gets (fetch_effects r req h) =
                [(reconcile.NamespacedName req, fresh_object r h)]).
  { unfold fetch_effects. destruct (NamespacedNameFilter _); reflexivity. }
  assert (Hve : gets (validator_effects r h) = []).
  { unfold validator_effects. destruct (WebhookValidator _); reflexivity. }
  assert (Hse : ∀ e op, gets (select_effects r s ctx e op) = []).
  { intros e op. unfold select_effects.
    destruct (sched.select ctx s) as [[]|]; reflexivity. }
  destruct (allowed r req) eqn:Ha.
  - destruct (fetch_cases r ctx req)
      as [(err & Hf & Hn)|[(err & Hf & Hn)|[(Hf & verr & Hv)|(Hf & Hv)]]].
    + rewrite (Reconcile_fetch_failed _ s _ _ h _ Ha Hf Hn). cbn [effects].
      rewrite gets_app, Hfe. reflexivity.
    + rewrite (Reconcile_not_found _ s _ _ h _ Ha Hf Hn). cbn [effects].
      rewrite gets_app, Hfe, Hse. reflexivity.
    + rewrite (Reconcile_rejected _ s _ _ h _ Ha Hf Hv). cbn [effects].
      rewrite !gets_app, Hfe, Hve, Hse. reflexivity.
    + rewrite (Reconcile_found_valid _ s _ _ h Ha Hf Hv). cbn [effects].
      rewrite !gets_app, Hfe, Hve, Hse. reflexivity.
  - unfold allowed in Ha.
    destruct (NamespacedNameFilter (cfg r)) as [filter|] eqn:Hfl; [|discriminate].
    rewrite (Reconcile_filtered _ s ctx _ h _ Hfl Ha). reflexivity.
Qed.

(** Every delete event of a call names the configured [ObjectType]. *)
Lemma Reconcile_sends_delete r s ctx req (h : Heap) ch d :
  (ch, events.Delete d) ∈ sends (effects (exec (Reconcile r s ctx req) h)) →
  events.Type_ d = ObjectType (cfg r).
Proof.
  assert (Hsel : ∀ t,
    sends t = [] →
    (ch, events.Delete d) ∈
      sends (t ++ select_effects r s ctx (delete_event r req) "Deleted") →
    events.Type_ d = ObjectType (cfg r)).
  { intros t Ht. rewrite sends_app, Ht, sends_select.
    destruct (sched.select ctx s) as [[]|]; simpl; intros Hin;
      try (apply elem_of_nil in Hin; destruct Hin).
    apply list_elem_of_singleton in Hin. injection Hin as -> ->. reflexivity. }
  destruct (allowed r req) eqn:Ha.
  - destruct (fetch_cases r ctx req)
      as [(err & Hf & Hn)|[(err & Hf & Hn)|[(Hf & verr & Hv)|(Hf & Hv)]]].
    + rewrite (Reconcile_fetch_failed _ s _ _ h _ Ha Hf Hn). cbn [effects].
      autorewrite with observe. simpl. intros []%elem_of_nil.
    + rewrite (Reconcile_not_found _ s _ _ h _ Ha Hf Hn). cbn [effects].
      apply Hsel, sends_fetch.
    + rewrite (Reconcile_rejected _ s _ _ h _ Ha Hf Hv). cbn [effects].
      rewrite !app_assoc. apply Hsel.
      autorewrite with observe. reflexivity.
    + rewrite (Reconcile_found_valid _ s _ _ h Ha Hf Hv). cbn [effects].
      autorewrite with observe.
      destruct (sched.select ctx s) as [[]|]; simpl; intros Hin;
        try (apply elem_of_nil in Hin; destruct Hin).
      apply list_elem_of_singleton in Hin. discriminate.
  - unfold allowed in Ha.
    destruct (NamespacedNameFilter (cfg r)) as [filter|] eqn:Hfl; [|discriminate].
    rewrite (Reconcile_filtered _ s ctx _ h _ Hfl Ha). simpl.
    intros []%elem_of_nil.
Qed.

(** Successive calls leave every live object as it was. *)
Lemma ReconcileAll_frame r calls (h : Heap) l :
  is_Some (h !! l) → ReconcileAll r calls h !! l = h !! l.
Proof.
  revert h. induction calls as [|c calls IH]; intros h Hl; [reflexivity|].
  simpl. rewrite IH.
  - apply Reconcile_frame, Hl.
  - rewrite Reconcile_frame; exact Hl.
Qed.

(** C10. After any number of calls of the same reconciler, a call of
    [Reconcile] hands the Getter an object that [newObject] has allocated for
    this call: a pointer that was not live before, of the dynamic type of the
    configured [ObjectType], to a zero value. The call writes through that
    pointer only: every object that was live before it, and the template
    [ObjectType] points to among them, is as it was before the first call.
    The reconciler and its [Config] are values that no call replaces, and
    every [DeleteEvent] names that same [ObjectType]. *)
Theorem C10_fresh_object_template_untouched r calls s ctx req (h : Heap) :
  is_Some (h !! client.ptr (ObjectType (cfg r))) →
  let template := client.ptr (ObjectType (cfg r)) in
  let h' := ReconcileAll r calls h in
  let run := exec (Reconcile r s ctx req) h' in
  h' !! template = h !! template ∧
  heap run !! template = h !! template ∧
  (∀ l, is_Some (h' !! l) → heap run !! l = h' !! l) ∧
  (∀ key obj, (key, obj) ∈ gets (effects run) →
     client.elem obj = client.elem (ObjectType (cfg r)) ∧
     h' !! client.ptr obj = None ∧
     client.ptr obj ≠ template ∧
     heap run !! client.ptr obj =
       Some (fst (Get (Getter_ (cfg r)) ctx key (client.elem obj)
                    (client.zero (client.elem obj))))) ∧
  (∀ ch d, (ch, events.Delete d) ∈ sends (effects run) →
     events.Type_ d = ObjectType (cfg r)).
Proof.
  intros Hlive template h' run.
  assert (Hh' : h' !! template = h !! template)
    by (apply ReconcileAll_frame, Hlive).
  assert (Hlive' : is_Some (h' !! template)) by (rewrite Hh'; exact Hlive).
  split; [exact Hh'|].
  split; [subst run; rewrite Reconcile_frame; assumption|].
  split; [intros l Hl; apply Reconcile_frame, Hl|].
  split; [|intros ch d; apply Reconcile_sends_delete].
  intros key obj. subst run. rewrite Reconcile_gets, Reconcile_heap.
  destruct (allowed r req); [|intros []%elem_of_nil].
  intros Hin. apply list_elem_of_singleton in Hin. injection Hin as -> ->.
  cbn [fresh_object client.elem client.ptr].
  split; [reflexivity|]. split; [apply fresh_not_live|]. split.
  - intros Heq. rewrite <- Heq, fresh_not_live in Hlive'.
    destruct Hlive'; discriminate.
  - apply fetch_heap_fresh.
Qed.

Lemma C10_witness :
  let r := fixtures.recWithValidator (fixtures.getReturnsHRForHR fixtures.hr1) in
  let calls :=
    [{| call_sched := fixtures.receiverWaiting sched.CaseSend;
        call_ctx := context.Background;
        call_req := fixtures.request fixtures.hr1NsName |};
     {| call_sched := fixtures.noReceiver;
        call_ctx := context.Cancelled;
        call_req := fixtures.request fixtures.hr2NsName |}] in
  let h' := ReconcileAll r calls fixtures.heap0 in
  let run := exec (Reconcile r (fixtures.receiverWaiting sched.CaseSend)
                     context.Background (fixtures.request fixtures.hr1NsName))
                  h' in
  h' !! 1%positive = Some (client.zero fixtures.HTTPRoute) ∧
  heap run !! 1%positive = Some (client.zero fixtures.HTTPRoute).
Proof.
  destruct (C10_fresh_object_template_untouched
              (fixtures.recWithValidator (fixtures.getReturnsHRForHR fixtures.hr1))
              [{| call_sched := fixtures.receiverWaiting sched.CaseSend;
                  call_ctx := context.Background;
                  call_req := fixtures.request fixtures.hr1NsName |};
               {| call_sched := fixtures.noReceiver;
                  call_ctx := context.Cancelled;
                  call_req := fixtures.request fixtures.hr2NsName |}]
              (fixtures.receiverWaiting sched.CaseSend) context.Background
              (fixtures.request fixtures.hr1NsName) fixtures.heap0)
    as (Hall & Hrun & _).
  - exists (client.zero fixtures.HTTPRoute). reflexivity.
  - split; [exact Hall|exact Hrun].
Defined.

End reconciler_facts.

(** * More of the reconciler *)
Module reconciler_more.

Import apierrors reconciler reconciler_facts.

Local Open Scope list_scope.

#[local] Hint Rewrite sends_app sends_fetch sends_validator sends_rejection
  sends_select recorded_app recorded_fetch recorded_validator
  recorded_rejection recorded_select : observe.

(** The five ways through [Reconcile], each with the run it yields. *)
Lemma Reconcile_paths r s ctx req (h : Heap) :
  (∃ filter,
     NamespacedNameFilter (cfg r) = Some filter ∧
     allowed r req = false ∧
     exec (Reconcile r s ctx req) h =
     mkRun (Returned reconcile.empty None) h
       [LogInfo "Reconciling the resource";
        FilterCall (reconcile.NamespacedName req);
        LogInfo (snd (filter (reconcile.NamespacedName req)))]) ∨
  (allowed r req = true ∧
   ∃ err, snd (fetch r ctx req) = Some err ∧ IsNotFound err = false ∧
     exec (Reconcile r s ctx req) h =
     mkRun (Returned reconcile.empty (Some err)) (fetch_heap r ctx req h)
       (fetch_effects r req h ++ [LogError err "Failed to get the resource"])) ∨
  (allowed r req = true ∧
   ∃ err, snd (fetch r ctx req) = Some err ∧ IsNotFound err = true ∧
     exec (Reconcile r s ctx req) h =
     mkRun (select_outcome s ctx) (fetch_heap r ctx req h)
       (fetch_effects r req h ++
        select_effects r s ctx (delete_event r req) "Deleted")) ∨
  (allowed r req = true ∧ snd (fetch r ctx req) = None ∧
   ∃ verr, validation r (fst (fetch r ctx req)) = Some verr ∧
     exec (Reconcile r s ctx req) h =
     mkRun (select_outcome s ctx) (fetch_heap r ctx req h)
       (fetch_effects r req h ++ validator_effects r h ++
        rejection_effects r h verr ++
        select_effects r s ctx (delete_event r req) "Deleted")) ∨
  (allowed r req = true ∧ snd (fetch r ctx req) = None ∧
   validation r (fst (fetch r ctx req)) = None ∧
   exec (Reconcile r s ctx req) h =
   mkRun (select_outcome s ctx) (fetch_heap r ctx req h)
     (fetch_effects r req h ++ validator_effects r h ++
      select_effects r s ctx (upsert_event r h) "Upserted")).
Proof.
  destruct (allowed r req) eqn:Ha.
  - right.
    destruct (fetch_cases r ctx req)
      as [(err & Hf & Hn)|[(err & Hf & Hn)|[(Hf & verr & Hv)|(Hf & Hv)]]].
    + left. split; [reflexivity|]. exists err.
      eauto using Reconcile_fetch_failed.
    + right. left. split; [reflexivity|]. exists err.
      eauto using Reconcile_not_found.
    + right. right. left. do 2 (split; [done|]). exists verr.
      eauto using Reconcile_rejected.
    + right. right. right. eauto using Reconcile_found_valid.
  - left. unfold allowed in Ha.
    destruct (NamespacedNameFilter (cfg r)) as [filter|] eqn:Hfl; [|discriminate].
    exists filter. eauto using Reconcile_filtered.
Qed.

Ltac paths r s ctx req h :=
  destruct (Reconcile_paths r s ctx req h)
    as [(filter & Hfl & Ha & ->)
       |[(Ha & err & Hf & Hn & ->)
        |[(Ha & err & Hf & Hn & ->)
         |[(Ha & Hf & verr & Hv & ->)
          |(Ha & Hf & Hv & ->)]]]];
  cbn [value heap effects].

Ltac stages :=
  unfold fetch_effects, validator_effects, rejection_effects, select_effects,
    select_outcome, upsert_event, delete_event, fresh_object, validation,
    allowed in *.

(** X1. The capabilities are called in a fixed order, each at most once: the
    filter if one is configured; then, unless it rejects, the Getter with the
    requested name and the fresh object; then the validator, if one is
    configured and the fetch has succeeded, on that object; then the event
    recorder, if the validator has returned an error. Nothing else is called:
    no validator on a not-found or failed fetch, no recorder without a
    validation error. *)
Theorem capabilities_called_in_order r s ctx req (h : Heap) :
  let run := exec (Reconcile r s ctx req) h in
  let nsname := reconcile.NamespacedName req in
  let obj := {| client.elem := client.elem (ObjectType (cfg r));
                client.ptr := fresh (dom h) |} in
  List.filter is_capability (effects run) =
    match NamespacedNameFilter (cfg r) with
    | Some _ => [FilterCall nsname]
    | None => []
    end ++
    (if allowed r req then
       GetCall nsname obj ::
       match snd (fetch r ctx req), WebhookValidator (cfg r) with
       | None, Some validator =>
           ValidatorCall obj ::
           match validator (client.elem obj) (fst (fetch r ctx req)) with
           | Some verr =>
               [Eventf (EventRecorder_ (cfg r)) (Some obj) "Warning" "Rejected"
                  (webhookValidationErrorLogMsg +:+ "; validation error: %v")
                  [verr]]
           | None => []
           end
       | _, _ => []
       end
     else []).
Proof.
  intros run nsname obj. subst run nsname obj.
  paths r s ctx req h; rewrite ?Ha, ?Hf, ?Hfl; stages.
  - reflexivity.
  - destruct (NamespacedNameFilter (cfg r)); reflexivity.
  - destruct (NamespacedNameFilter (cfg r)),
      (sched.select ctx s) as [[]|]; reflexivity.
  - destruct (WebhookValidator (cfg r)) as [validator|]; [|discriminate].
    cbn [client.elem]. rewrite Hv.
    destruct (NamespacedNameFilter (cfg r)),
      (sched.select ctx s) as [[]|]; reflexivity.
  - destruct (WebhookValidator (cfg r)) as [validator|];
      cbn [client.elem]; rewrite ?Hv;
      destruct (NamespacedNameFilter (cfg r)),
        (sched.select ctx s) as [[]|]; reflexivity.
Qed.

(** X2. A call records at most one warning, and it records one only when it has
    fetched the object and the validator has rejected it: a valid upsert, a
    not-found, a failed fetch and a filtered request record nothing. *)
Theorem warning_only_on_rejection r s ctx req (h : Heap) :
  let run := exec (Reconcile r s ctx req) h in
  (length (recorded (effects run)) ≤ 1)%nat ∧
  (recorded (effects run) ≠ [] ↔
   allowed r req = true ∧ snd (fetch r ctx req) = None ∧
   ∃ verr, validation r (fst (fetch r ctx req)) = Some verr).
Proof.
  intros run. subst run.
  paths r s ctx req h; autorewrite with observe; simpl.
  - split; [lia|]. split; [done|]. intros (Ha' & _). congruence.
  - split; [lia|]. split; [done|]. intros (_ & Hf' & _). congruence.
  - split; [lia|]. split; [done|]. intros (_ & Hf' & _). congruence.
  - split; [lia|]. split; [eauto|discriminate].
  - split; [lia|]. split; [done|]. intros (_ & _ & verr & Hv'). congruence.
Qed.

(** X3. The kind of an event tells what the call has found. An event is sent on
    the configured channel only; an [UpsertEvent] only for an object that was
    fetched and that the validator, if there is one, accepts as it stands in
    the heap after the call; a [DeleteEvent] only for an object that was not
    found or that the validator rejects. *)
Theorem event_kind_reflects_fetch r s ctx req (h : Heap) ch e :
  let run := exec (Reconcile r s ctx req) h in
  (ch, e) ∈ sends (effects run) →
  ch = EventCh (cfg r) ∧
  allowed r req = true ∧
  match e with
  | events.Upsert u =>
      snd (fetch r ctx req) = None ∧
      validation r (heap run !!! client.ptr (events.Resource u)) = None
  | events.Delete _ =>
      (∃ err, snd (fetch r ctx req) = Some err ∧ IsNotFound err = true) ∨
      (snd (fetch r ctx req) = None ∧
       ∃ verr, validation r (fst (fetch r ctx req)) = Some verr)
  end.
Proof.
  intros run. subst run.
  paths r s ctx req h; autorewrite with observe;
    try (simpl; intros []%elem_of_nil);
    (destruct (sched.select ctx s) as [[]|]; simpl; intros Hin;
     try (apply elem_of_nil in Hin; destruct Hin);
     apply list_elem_of_singleton in Hin; injection Hin as -> ->;
     split; [reflexivity|]; split; [exact Ha|]).
  - left. eauto.
  - right. eauto.
  - split; [exact Hf|].
    cbn [upsert_event fresh_object events.Resource client.ptr].
    unfold fetch_heap. rewrite lookup_total_insert_eq. exact Hv.
Qed.

Lemma event_kind_reflects_fetch_witness :
  let r := fixtures.recWithValidator (fixtures.getReturnsHRForHR fixtures.hr1) in
  let run := exec (Reconcile r (fixtures.polling sched.CaseDone)
                     context.Background (fixtures.request fixtures.hr1NsName))
                  fixtures.heap0 in
  (fixtures.eventCh, fixtures.upserted) ∈ sends (effects run) ∧
  validation r (heap run !!! 2%positive) = None.
Proof.
  assert (Hin : (fixtures.eventCh, fixtures.upserted) ∈
    sends (effects (exec (Reconcile
      (fixtures.recWithValidator (fixtures.getReturnsHRForHR fixtures.hr1))
      (fixtures.polling sched.CaseDone) context.Background
      (fixtures.request fixtures.hr1NsName)) fixtures.heap0)))
    by (vm_compute; apply list_elem_of_here).
  destruct (event_kind_reflects_fetch
              (fixtures.recWithValidator (fixtures.getReturnsHRForHR fixtures.hr1))
              (fixtures.polling sched.CaseDone) context.Background
              (fixtures.request fixtures.hr1NsName) fixtures.heap0
              fixtures.eventCh fixtures.upserted Hin)
    as (_ & _ & _ & Hvalid).
  split; [exact Hin|exact Hvalid].
Defined.

Lemma select_none ctx s :
  sched.select ctx s = None ↔
  context.done_at ctx = None ∧ sched.ready_at s = None.
Proof.
  unfold sched.select.
  destruct (context.done_at ctx) as [c|], (sched.ready_at s) as [t|];
    try (destruct (c <? t)%nat, (t <? c)%nat); split;
    try discriminate; try done; intros []; discriminate.
Qed.

(** X4. A call stays blocked for ever in exactly one situation: it has passed the
    filter, the fetch has not failed with an error other than not-found, the
    context is never cancelled and the channel never takes the send. In every
    other situation it returns. A blocked call has sent nothing and has not
    observed a cancellation. *)
Theorem blocked_iff_never_ready r s ctx req (h : Heap) :
  let run := exec (Reconcile r s ctx req) h in
  (value run = Blocked ↔
   allowed r req = true ∧ fetch_error r ctx req = None ∧
   context.done_at ctx = None ∧ sched.ready_at s = None) ∧
  (value run ≠ Blocked → ∃ res err, value run = Returned res err) ∧
  (value run = Blocked → List.filter is_comm (effects run) = []).
Proof.
  intros run. subst run.
  assert (Hout : select_outcome s ctx = Blocked ↔
                 context.done_at ctx = None ∧ sched.ready_at s = None).
  { rewrite <- select_none. unfold select_outcome.
    destruct (sched.select ctx s); split; done. }
  assert (Hcomm : ∀ t e op,
    List.filter is_comm t = [] → select_outcome s ctx = Blocked →
    List.filter is_comm (t ++ select_effects r s ctx e op) = []).
  { intros t e op Ht. unfold select_outcome, select_effects.
    rewrite List.filter_app, Ht.
    destruct (sched.select ctx s) as [[]|]; done. }
  assert (Hfe : List.filter is_comm (fetch_effects r req h) = []).
  { unfold fetch_effects. destruct (NamespacedNameFilter _); reflexivity. }
  assert (Hve : List.filter is_comm (validator_effects r h) = []).
  { unfold validator_effects. destruct (WebhookValidator _); reflexivity. }
  unfold fetch_error.
  paths r s ctx req h; rewrite Ha, ?Hf, ?Hn.
  - split; [|split].
    + split; [discriminate|]. intros []. discriminate.
    + eauto.
    + discriminate.
  - split; [|split].
    + split; [discriminate|]. intros (_ & ? & _). discriminate.
    + eauto.
    + discriminate.
  - split; [|split].
    + rewrite Hout. split; [intros []; auto|intros (_ & _ & ? & ?); auto].
    + destruct (select_outcome s ctx); [eauto|done].
    + apply Hcomm, Hfe.
  - split; [|split].
    + rewrite Hout. split; [intros []; auto|intros (_ & _ & ? & ?); auto].
    + destruct (select_outcome s ctx); [eauto|done].
    + rewrite !app_assoc. apply Hcomm.
      rewrite !List.filter_app, Hfe, Hve. reflexivity.
  - split; [|split].
    + rewrite Hout. split; [intros []; auto|intros (_ & _ & ? & ?); auto].
    + destruct (select_outcome s ctx); [eauto|done].
    + rewrite !app_assoc. apply Hcomm.
      rewrite !List.filter_app, Hfe, Hve. reflexivity.
Qed.

(** A call that reaches its [select] statement: what it has done before is
    no communication, and what it does from there on is the [select]. *)
Lemma Reconcile_emission r s ctx req (h : Heap) :
  allowed r req = true →
  fetch_error r ctx req = None →
  ∃ pre e op,
    exec (Reconcile r s ctx req) h =
      mkRun (select_outcome s ctx) (fetch_heap r ctx req h)
        (pre ++ select_effects r s ctx e op) ∧
    List.filter is_comm pre = [] ∧ sends pre = [].
Proof.
  intros Ha0 He. unfold fetch_error in He. rewrite Ha0 in He.
  assert (Hfe : List.filter is_comm (fetch_effects r req h) = []).
  { unfold fetch_effects. destruct (NamespacedNameFilter _); reflexivity. }
  assert (Hve : List.filter is_comm (validator_effects r h) = []).
  { unfold validator_effects. destruct (WebhookValidator _); reflexivity. }
  destruct (Reconcile_paths r s ctx req h)
    as [(filter & Hfl & Ha & Heq)
       |[(Ha & err & Hf & Hn & Heq)
        |[(Ha & err & Hf & Hn & Heq)
         |[(Ha & Hf & verr & Hv & Heq)
          |(Ha & Hf & Hv & Heq)]]]].
  - congruence.
  - rewrite Hf, Hn in He. discriminate.
  - exists (fetch_effects r req h), (delete_event r req), "Deleted".
    split; [exact Heq|]. split; [exact Hfe|apply sends_fetch].
  - exists (fetch_effects r req h ++ validator_effects r h ++
            rejection_effects r h verr), (delete_event r req), "Deleted".
    rewrite <- !app_assoc. split; [exact Heq|].
    rewrite !List.filter_app, Hfe, Hve. autorewrite with observe. done.
  - exists (fetch_effects r req h ++ validator_effects r h),
      (upsert_event r h), "Upserted".
    rewrite <- !app_assoc. split; [exact Heq|].
    rewrite !List.filter_app, Hfe, Hve. autorewrite with observe. done.
Qed.

(** X5. The [select] statement is decided by which comes first. With a context
    that is cancelled at some instant, a call that reaches its [select]
    always returns [reconcile.Result{}] and a nil error. If the cancellation
    comes strictly before the channel can take the send, the call observes it
    and sends nothing. If the channel can take the send strictly before the
    cancellation, the event is sent and the later cancellation is not
    observed: it neither retracts the event nor changes the result. *)
Theorem cancellation_races_send r s ctx req (h : Heap) c :
  allowed r req = true →
  fetch_error r ctx req = None →
  context.done_at ctx = Some c →
  let run := exec (Reconcile r s ctx req) h in
  value run = Returned reconcile.empty None ∧
  ((∀ t, sched.ready_at s = Some t → c < t) →
   List.filter is_comm (effects run) = [DoneRecv] ∧
   sends (effects run) = []) ∧
  (∀ t, sched.ready_at s = Some t → t < c →
   ∃ e, List.filter is_comm (effects run) = [ChanSend (EventCh (cfg r)) e] ∧
        sends (effects run) = [(EventCh (cfg r), e)]).
Proof.
  intros Ha He Hd run. subst run.
  destruct (Reconcile_emission r s ctx req h Ha He)
    as (pre & e & op & -> & Hpre & Hsends).
  cbn [value effects].
  rewrite List.filter_app, sends_app, Hpre, Hsends.
  unfold select_outcome, select_effects, sched.select. rewrite Hd.
  split; [|split].
  - destruct (sched.ready_at s) as [t|];
      [destruct (c <? t)%nat, (t <? c)%nat|]; reflexivity.
  - intros Hfirst. destruct (sched.ready_at s) as [t|]; [|done].
    specialize (Hfirst t eq_refl). apply Nat.ltb_lt in Hfirst.
    rewrite Hfirst. done.
  - intros t -> Hlt. exists e.
    destruct (c <? t)%nat eqn:Hct; [apply Nat.ltb_lt in Hct; lia|].
    apply Nat.ltb_lt in Hlt. rewrite Hlt. done.
Qed.

Lemma cancellation_races_send_witness :
  let r := fixtures.recWithValidator (fixtures.getReturnsHRForHR fixtures.hr1) in
  let ctx := {| context.done_at := Some 2 |} in
  let run := exec (Reconcile r (fixtures.polling sched.CaseDone) ctx
                     (fixtures.request fixtures.hr1NsName)) fixtures.heap0 in
  value run = Returned reconcile.empty None ∧
  ∃ e, List.filter is_comm (effects run) = [ChanSend fixtures.eventCh e] ∧
       sends (effects run) = [(fixtures.eventCh, e)].
Proof.
  destruct (cancellation_races_send
              (fixtures.recWithValidator (fixtures.getReturnsHRForHR fixtures.hr1))
              (fixtures.polling sched.CaseDone) {| context.done_at := Some 2 |}
              (fixtures.request fixtures.hr1NsName) fixtures.heap0 2)
    as (Hv & _ & Hsend); [reflexivity|reflexivity|reflexivity|].
  split; [exact Hv|]. apply (Hsend 1); [reflexivity|lia].
Defined.

(** X6. The log tells what the call has done. Every call starts with the line
    "Reconciling the resource". Past the filter, a call ends with the line
    "Upserted the resource" exactly when it has sent an [UpsertEvent], with
    "Deleted the resource" exactly when it has sent a [DeleteEvent], and a
    fetch failure ends it with the error logged as "Failed to get the
    resource". *)
Theorem log_tells_the_outcome r s ctx req (h : Heap) :
  allowed r req = true →
  let run := exec (Reconcile r s ctx req) h in
  head (effects run) = Some (LogInfo "Reconciling the resource") ∧
  match sends (effects run) with
  | [(_, events.Upsert _)] =>
      last (effects run) = Some (LogInfo "Upserted the resource")
  | [(_, events.Delete _)] =>
      last (effects run) = Some (LogInfo "Deleted the resource")
  | _ =>
      last (effects run) ≠ Some (LogInfo "Upserted the resource") ∧
      last (effects run) ≠ Some (LogInfo "Deleted the resource")
  end ∧
  (∀ err, fetch_error r ctx req = Some err →
     last (effects run) = Some (LogError err "Failed to get the resource")).
Proof.
  intros Ha0 run. subst run. unfold fetch_error. rewrite Ha0.
  paths r s ctx req h; try congruence; rewrite Hf, ?Hn; stages;
    destruct (NamespacedNameFilter (cfg r)),
      (WebhookValidator (cfg r)), (sched.select ctx s) as [[]|];
    simpl; (split; [reflexivity|]); (split; [|congruence]);
    try reflexivity; split; discriminate.
Qed.

Lemma log_tells_the_outcome_witness :
  let r := fixtures.recWithValidator (fixtures.getReturnsHRForHR fixtures.hr2) in
  let run := exec (Reconcile r (fixtures.polling sched.CaseDone)
                     context.Background (fixtures.request fixtures.hr2NsName))
                  fixtures.heap0 in
  head (effects run) = Some (LogInfo "Reconciling the resource") ∧
  last (effects run) = Some (LogInfo "Deleted the resource").
Proof.
  destruct (log_tells_the_outcome
              (fixtures.recWithValidator (fixtures.getReturnsHRForHR fixtures.hr2))
              (fixtures.polling sched.CaseDone) context.Background
              (fixtures.request fixtures.hr2NsName) fixtures.heap0)
    as (Hhead & Hlast & _); [reflexivity|].
  split; [exact Hhead|exact Hlast].
Defined.

(** X7. In case of a validation error the resource is handled as if it was
    deleted: what a reconciler sends and returns for an object that its
    validator rejects is what a reconciler of the same type and channel sends
    and returns when the object is not found. The consumer of the channel
    cannot tell the two apart. *)
Theorem rejection_is_sent_as_deletion r1 r2 s ctx req (h1 h2 : Heap) verr err :
  ObjectType (cfg r1) = ObjectType (cfg r2) →
  EventCh (cfg r1) = EventCh (cfg r2) →
  allowed r1 req = true →
  snd (fetch r1 ctx req) = None →
  validation r1 (fst (fetch r1 ctx req)) = Some verr →
  allowed r2 req = true →
  snd (fetch r2 ctx req) = Some err →
  IsNotFound err = true →
  let rejected := exec (Reconcile r1 s ctx req) h1 in
  let missing := exec (Reconcile r2 s ctx req) h2 in
  sends (effects rejected) = sends (effects missing) ∧
  value rejected = value missing.
Proof.
  intros Hty Hch Ha1 Hf1 Hv1 Ha2 Hf2 Hn2 rejected missing.
  subst rejected missing.
  rewrite (Reconcile_rejected _ s _ _ h1 _ Ha1 Hf1 Hv1).
  rewrite (Reconcile_not_found _ s _ _ h2 _ Ha2 Hf2 Hn2).
  cbn [value effects]. autorewrite with observe.
  unfold delete_event. rewrite Hty, Hch. split; reflexivity.
Qed.

Lemma rejection_is_sent_as_deletion_witness :
  let r1 := fixtures.recWithValidator (fixtures.getReturnsHRForHR fixtures.hr2) in
  let r2 := fixtures.recPlain fixtures.getReturnsNotFoundErrorForHR in
  let s := fixtures.polling sched.CaseSend in
  let req := fixtures.request fixtures.hr2NsName in
  sends (effects (exec (Reconcile r1 s context.Background req) fixtures.heap0)) =
  sends (effects (exec (Reconcile r2 s context.Background req)
                    fixtures.heapWithFilledTemplate)).
Proof.
  apply (rejection_is_sent_as_deletion
           (fixtures.recWithValidator (fixtures.getReturnsHRForHR fixtures.hr2))
           (fixtures.recPlain fixtures.getReturnsNotFoundErrorForHR)
           (fixtures.polling sched.CaseSend) context.Background
           (fixtures.request fixtures.hr2NsName)
           fixtures.heap0 fixtures.heapWithFilledTemplate
           (errorString "test") (NewNotFound "not found")); reflexivity.
Defined.

(** X8. The object of an [UpsertEvent] belongs to the event. Once a call has sent
    an [UpsertEvent], no later call of any reconciler on the resulting heap
    writes to the object the event points to, and no later call hands that
    object to its Getter again: every call fetches into an object of its
    own. *)
Theorem upserted_object_is_never_reused r s ctx req (h : Heap) ch u r' calls :
  let run := exec (Reconcile r s ctx req) h in
  (ch, events.Upsert u) ∈ sends (effects run) →
  let p := client.ptr (events.Resource u) in
  let h' := ReconcileAll r' calls (heap run) in
  heap run !! p = Some (fst (fetch r ctx req)) ∧
  h' !! p = Some (fst (fetch r ctx req)) ∧
  ∀ s' ctx' req' key obj,
    (key, obj) ∈ gets (effects (exec (Reconcile r' s' ctx' req') h')) →
    client.ptr obj ≠ p.
Proof.
  intros run Hin p h'. subst run p h'.
  assert (Hp : heap (exec (Reconcile r s ctx req) h)
                 !! client.ptr (events.Resource u) =
               Some (fst (fetch r ctx req))).
  { revert Hin.
    paths r s ctx req h; autorewrite with observe;
      try (simpl; intros []%elem_of_nil);
      (destruct (sched.select ctx s) as [[]|]; simpl; intros Hin;
       try (apply elem_of_nil in Hin; destruct Hin);
       apply list_elem_of_singleton in Hin); try discriminate.
    injection Hin as -> ->. apply fetch_heap_fresh. }
  assert (Hp' : ReconcileAll r' calls (heap (exec (Reconcile r s ctx req) h))
                  !! client.ptr (events.Resource u) =
                Some (fst (fetch r ctx req))).
  { rewrite ReconcileAll_frame; [exact Hp|]. eexists. exact Hp. }
  split; [exact Hp|]. split; [exact Hp'|].
  intros s' ctx' req' key obj. rewrite Reconcile_gets.
  destruct (allowed r' req'); [|intros []%elem_of_nil].
  intros Hget. apply list_elem_of_singleton in Hget. injection Hget as -> ->.
  cbn [fresh_object client.ptr]. intros Heq.
  rewrite <- Heq, fresh_not_live in Hp'. discriminate.
Qed.

Lemma upserted_object_is_never_reused_witness :
  let r := fixtures.recWithValidator (fixtures.getReturnsHRForHR fixtures.hr1) in
  let r' := fixtures.recPlain (fixtures.getReturnsHRForHR fixtures.hr2) in
  let call := {| call_sched := fixtures.polling sched.CaseSend;
                 call_ctx := context.Background;
                 call_req := fixtures.request fixtures.hr2NsName |} in
  let run := exec (Reconcile r (fixtures.polling sched.CaseSend)
                     context.Background (fixtures.request fixtures.hr1NsName))
                  fixtures.heap0 in
  ReconcileAll r' [call; call] (heap run) !! 2%positive = Some fixtures.hr1.
Proof.
  assert (Hin : (fixtures.eventCh, events.Upsert
                   {| events.Resource :=
                        {| client.elem := fixtures.HTTPRoute;
                           client.ptr := 2%positive |} |}) ∈
    sends (effects (exec (Reconcile
      (fixtures.recWithValidator (fixtures.getReturnsHRForHR fixtures.hr1))
      (fixtures.polling sched.CaseSend) context.Background
      (fixtures.request fixtures.hr1NsName)) fixtures.heap0)))
    by (vm_compute; apply list_elem_of_here).
  destruct (upserted_object_is_never_reused
              (fixtures.recWithValidator (fixtures.getReturnsHRForHR fixtures.hr1))
              (fixtures.polling sched.CaseSend) context.Background
              (fixtures.request fixtures.hr1NsName) fixtures.heap0
              fixtures.eventCh _
              (fixtures.recPlain (fixtures.getReturnsHRForHR fixtures.hr2))
              [{| call_sched := fixtures.polling sched.CaseSend;
                  call_ctx := context.Background;
                  call_req := fixtures.request fixtures.hr2NsName |};
               {| call_sched := fixtures.polling sched.CaseSend;
                  call_ctx := context.Background;
                  call_req := fixtures.request fixtures.hr2NsName |}] Hin)
    as (_ & Hlater & _).
  exact Hlater.
Defined.

(** X9. [newObject] neither returns the template nor copies it. Two calls in a
    row return two different pointers, none of which was live before, both of
    the dynamic type of the template and both to a zero value, whatever the
    template itself holds; every object that was live is left as it was, and
    nothing but the allocation happens. *)
Theorem newObject_twice objectType (h : Heap) :
  let run := exec_ (o1 ← newObject objectType;
                    o2 ← newObject objectType;
                    mret (o1, o2)) h in
  ∃ o1 o2,
    value run = Some (o1, o2) ∧
    effects run = [] ∧
    client.ptr o1 ≠ client.ptr o2 ∧
    client.elem o1 = client.elem objectType ∧
    client.elem o2 = client.elem objectType ∧
    h !! client.ptr o1 = None ∧ h !! client.ptr o2 = None ∧
    heap run !! client.ptr o1 = Some (client.zero (client.elem objectType)) ∧
    heap run !! client.ptr o2 = Some (client.zero (client.elem objectType)) ∧
    ∀ l, is_Some (h !! l) → heap run !! l = h !! l.
Proof.
  intros run. subst run.
  set (t := client.elem objectType).
  set (l1 := fresh (dom h)).
  set (h1 := <[l1 := client.zero t]> h).
  set (l2 := fresh (dom h1)).
  exists {| client.elem := t; client.ptr := l1 |},
         {| client.elem := t; client.ptr := l2 |}.
  assert (Hl1 : h !! l1 = None) by apply fresh_not_live.
  assert (Hl2 : h1 !! l2 = None) by apply fresh_not_live.
  assert (Hne : l1 ≠ l2).
  { intros Heq. rewrite <- Heq in Hl2. unfold h1 in Hl2.
    rewrite lookup_insert_eq in Hl2. discriminate. }
  cbn [client.elem client.ptr].
  split; [reflexivity|]. split; [reflexivity|]. split; [exact Hne|].
  split; [reflexivity|]. split; [reflexivity|]. split; [exact Hl1|].
  split.
  { unfold h1 in Hl2. rewrite lookup_insert_ne in Hl2 by exact Hne.
    exact Hl2. }
  change (heap (exec_ (o1 ← newObject objectType;
                       o2 ← newObject objectType; mret (o1, o2)) h))
    with (<[l2 := client.zero t]> h1).
  split; [|split].
  - rewrite lookup_insert_ne by (intros Heq; apply Hne; symmetry; exact Heq).
    apply lookup_insert_eq.
  - apply lookup_insert_eq.
  - intros l Hl.
    rewrite lookup_insert_ne.
    + unfold h1. apply lookup_insert_ne. intros <-.
      rewrite Hl1 in Hl. destruct Hl; discriminate.
    + intros <-. unfold h1 in Hl2.
      destruct (decide (l1 = l2)) as [Heq|_]; [destruct (Hne Heq)|].
      rewrite lookup_insert_ne in Hl2 by exact Hne.
      rewrite Hl2 in Hl. destruct Hl; discriminate.
Qed.

(** X10. A call reads nothing of the heap it starts on. On two heaps, whatever
    they hold and whatever the template of [ObjectType] holds in them, the
    same call returns the same result, performs the same calls, logs and
    communications up to the place of the object it allocates, and leaves the
    same fetched value in that object. *)
Theorem heap_is_not_read r s ctx req (h1 h2 : Heap) :
  let run1 := exec (Reconcile r s ctx req) h1 in
  let run2 := exec (Reconcile r s ctx req) h2 in
  value run1 = value run2 ∧
  erase <$> effects run1 = erase <$> effects run2 ∧
  (allowed r req = true →
   heap run1 !! fresh (dom h1) = heap run2 !! fresh (dom h2)).
Proof.
  intros run1 run2. subst run1 run2.
  paths r s ctx req h1;
    (destruct (Reconcile_paths r s ctx req h2)
       as [(? & ? & ? & ->)
          |[(? & ? & ? & ? & ->)
           |[(? & ? & ? & ? & ->)
            |[(? & ? & ? & ? & ->)
             |(? & ? & ? & ->)]]]]);
    cbn [value heap effects]; try congruence; simplify_eq;
    (split; [reflexivity|]);
    (split; [|try congruence; intros _; rewrite !fetch_heap_fresh; reflexivity]);
    stages;
    destruct (NamespacedNameFilter (cfg r)),
      (WebhookValidator (cfg r)), (sched.select ctx s) as [[]|];
    reflexivity.
Qed.

End reconciler_more.

(** * The generic informer *)
Module externalversions_facts.

Import externalversions.

Example ForResource_gatewayconfigs :
  ForResource fixtures.SchemeGroupVersion fixtures.gatewayConfigsInformer []
    {| schema.gvr_Group := "gateway.nginx.org";
       schema.gvr_Version := "v1alpha1";
       schema.gvr_Resource := "gatewayconfigs" |} =
  (Some {| informer := "gatewayconfigs";
           resource := {| schema.gr_Group := "gateway.nginx.org";
                          schema.gr_Resource := "gatewayconfigs" |} |},
   None, ["gatewayconfigs"]).
Proof. reflexivity. Qed.

Example ForResource_other_version :
  let asked := {| schema.gvr_Group := "gateway.nginx.org";
                  schema.gvr_Version := "v1beta1";
                  schema.gvr_Resource := "gatewayconfigs" |} in
  ForResource fixtures.SchemeGroupVersion fixtures.gatewayConfigsInformer []
    asked =
  (None, Some (Errorf "no informer found for %v" asked), []).
Proof. reflexivity. Qed.

Example Lister_of_gatewayconfigs :
  Lister fixtures.getIndexer
    {| informer := "gatewayconfigs";
       resource := {| schema.gr_Group := "gateway.nginx.org";
                      schema.gr_Resource := "gatewayconfigs" |} |} =
  NewGenericLister "gatewayconfigs/indexer"
    {| schema.gr_Group := "gateway.nginx.org";
       schema.gr_Resource := "gatewayconfigs" |}.
Proof. reflexivity. Qed.

(** X11. [ForResource] knows one resource. It returns an informer exactly when it
    is asked for the gateway configs of the scheme's group and version, and an
    error otherwise, never both and never neither. The error names the
    resource asked for and the factory is left as it was: no informer is
    made for an unknown resource. The informer returned is the one of the
    factory for gateway configs, and its lister reads the indexer of that
    informer under the group and the resource asked for, the version
    dropped. *)
Theorem ForResource_knows_gatewayconfigs_only
    {SharedIndexInformer Indexer Factory : Type}
    (GetIndexer : SharedIndexInformer → Indexer)
    (SchemeGroupVersion : schema.GroupVersion)
    (GatewayConfigsInformer : Factory → SharedIndexInformer * Factory)
    (f : Factory) (resource : schema.GroupVersionResource) :
  let result := ForResource SchemeGroupVersion GatewayConfigsInformer f resource in
  let found := fst (fst result) in
  let err := snd (fst result) in
  (is_Some found ↔
   resource = schema.WithResource SchemeGroupVersion "gatewayconfigs") ∧
  (is_Some found ↔ err = None) ∧
  (∀ e, err = Some e →
     e = Errorf "no informer found for %v" resource ∧ snd result = f) ∧
  (∀ g, found = Some g →
     Informer g = fst (GatewayConfigsInformer f) ∧
     snd result = snd (GatewayConfigsInformer f) ∧
     Lister GetIndexer g =
       NewGenericLister (GetIndexer (fst (GatewayConfigsInformer f)))
         {| schema.gr_Group := schema.gv_Group SchemeGroupVersion;
            schema.gr_Resource := "gatewayconfigs" |}).
Proof.
  intros result found err. subst result found err. unfold ForResource.
  destruct (decide (resource =
                    schema.WithResource SchemeGroupVersion "gatewayconfigs"))
    as [->|Hne].
  - destruct (GatewayConfigsInformer f) as [i f'] eqn:Hi. simpl.
    split; [split; eauto|]. split; [split; eauto|].
    split; [discriminate|].
    intros g [= <-]. repeat split.
  - simpl. split; [split; [intros []; discriminate|intros Heq; destruct (Hne Heq)]|].
    split; [split; [intros []; discriminate|discriminate]|].
    split; [|discriminate].
    intros e [= <-]. split; reflexivity.
Qed.

End externalversions_facts.
